(** * Waste classification predictor: backend/model/predict.py

    A shallow embedding of [WastePredictor] (category table, model loading,
    image preprocessing, single and batch prediction) together with the
    properties its specification states about it.

    Conventions of the embedding:
    - A float is the rational number it holds ([Q]).  The arithmetic whose
      result reaches a prediction (the product [score * 100], the scaling
      in [np.random.uniform]) rounds to its binary format as IEEE 754
      does, to the nearest number of the format, ties to the even
      mantissa; overflow does not occur on the numbers met here.  The
      elements of the image tensor, which only feed the network, are kept
      as the quotients they approximate.  [round(x, 1)] is the nearest
      tenth of the float [x], ties to even.
    - A method is a computation over a [world] (the predictor object, the
      position in NumPy's random stream, the lines printed so far) that ends
      in a value or in a raised exception.  A raised exception keeps the
      world reached so far, as in Python.
    - The libraries the module calls (Keras, PIL, NumPy's generator, the
      file system) are the fields of an [environment]. *)

From Stdlib Require Import ZArith QArith Qround Qabs Qpower String List Lia Lqa.
From Stdlib.Strings Require Import Byte Ascii.
From stdpp Require Import gmap strings list fin_maps.

Local Open Scope string_scope.
Local Open Scope Z_scope.

(** ** Exceptions and results *)

(** Instances of Python's [Exception] class, the ones this module can meet.
    [OtherException] stands for any further subclass, named by its class. *)
Inductive exn : Type :=
| KeyError (key : Z)
| IndexError
| ValueError (what : string)
| FileNotFoundError (path : string)
| UnidentifiedImageError
| OtherException (class : string).

Inductive result (A : Type) : Type :=
| Ok (a : A)
| Raise (e : exn).
Arguments Ok {A} a.
Arguments Raise {A} e.

(** ** The category table *)

Record CategoryInfo : Type := {
  c_name : string;
  c_type : string;
  c_tip : string;
  c_co2 : Q;
  c_color : string;
  c_icon : string
}.

Definition Glass : CategoryInfo := {|
  c_name := "Glass";
  c_type := "Recyclable";
  c_tip := "Separate by color when possible. Remove caps and lids. Rinse before recycling.";
  c_co2 := 4 # 10;
  c_color := "#8B5CF6";
  c_icon := "🍾" |}.

Definition Metal : CategoryInfo := {|
  c_name := "Metal";
  c_type := "Recyclable";
  c_tip := "Aluminum cans are infinitely recyclable! Rinse before recycling. Separate steel and aluminum if required.";
  c_co2 := 6 # 10;
  c_color := "#EF4444";
  c_icon := "🥫" |}.

Definition Organic_Waste : CategoryInfo := {|
  c_name := "Organic Waste";
  c_type := "Compostable";
  c_tip := "Perfect for composting! Add to your compost bin or use municipal composting services.";
  c_co2 := 2 # 10;
  c_color := "#F59E0B";
  c_icon := "🍂" |}.

Definition Paper : CategoryInfo := {|
  c_name := "Paper";
  c_type := "Recyclable";
  c_tip := "Keep paper clean and dry. Remove plastic windows, tape, staples, and clips before recycling. Flatten boxes to save space. Avoid recycling greasy pizza boxes, waxed paper, or paper with food residue. Newspapers, magazines, office paper, and cardboard are all recyclable. Check local guidelines for specific requirements.";
  c_co2 := 3 # 10;
  c_color := "#10B981";
  c_icon := "📄" |}.

Definition Plastic : CategoryInfo := {|
  c_name := "Plastic";
  c_type := "Recyclable";
  c_tip := "Rinse thoroughly and remove labels before recycling. Check local guidelines for plastic types accepted.";
  c_co2 := 5 # 10;
  c_color := "#3B82F6";
  c_icon := "♻️" |}.

Definition Textiles : CategoryInfo := {|
  c_name := "Textiles";
  c_type := "Recyclable";
  c_tip := "Donate wearable clothes to charity. For damaged items, use textile recycling bins. Clean and dry items before donating. Remove zippers and buttons if possible. Natural fibers like cotton and wool are more easily recycled than synthetic blends.";
  c_co2 := 7 # 10;
  c_color := "#EC4899";
  c_icon := "👕" |}.

(** The literal's items, in the order they are written. *)
Definition WASTE_CATEGORIES_items : list (Z * CategoryInfo) :=
  [ (0, Glass); (1, Metal); (2, Organic_Waste);
    (3, Paper); (4, Plastic); (5, Textiles) ].

(** [WASTE_CATEGORIES = {0: {...}, ..., 5: {...}}], a dict keyed by int. *)
Definition WASTE_CATEGORIES : gmap Z CategoryInfo :=
  list_to_map WASTE_CATEGORIES_items.

(** [d[k]]: subscription of a dict, [KeyError] on a missing key. *)
Definition dict_getitem {V : Type} (d : gmap Z V) (k : Z) : result V :=
  match d !! k with
  | Some v => Ok v
  | None => Raise (KeyError k)
  end.

(** [len(d)]. *)
Definition len {V : Type} (d : gmap Z V) : Z := Z.of_nat (size d).

(** ** Arrays, images, models *)

(** A NumPy array of floats: a scalar, or a sequence of arrays. *)
#[warnings="-register-all"] Inductive ndarray : Type :=
| Scalar (v : Q)
| NDArr (items : list ndarray).

(** [a.shape] (of a rectangular array). *)
Fixpoint shape (a : ndarray) : list nat :=
  match a with
  | Scalar _ => []
  | NDArr items =>
      length items :: match items with [] => [] | x :: _ => shape x end
  end.

(** All the numbers an array holds, in row-major order. *)
Fixpoint values (a : ndarray) : list Q :=
  match a with
  | Scalar v => [v]
  | NDArr items => concat (map values items)
  end.

(** [a / d], element-wise. *)
Fixpoint np_divide (a : ndarray) (d : Q) : ndarray :=
  match a with
  | Scalar v => Scalar (v / d)
  | NDArr items => NDArr (map (fun x => np_divide x d) items)
  end.

(** [np.expand_dims(a, axis=0)]. *)
Definition np_expand_dims0 (a : ndarray) : ndarray := NDArr [a].

(** PIL images: a mode string ("L", "LA", "P", "RGB", "RGBA", "CMYK", ...),
    a size (width, height) and, for each pixel, the values of its bands
    (one for "L" and "P", two for "LA", three for "RGB", four for "RGBA"
    and "CMYK"). *)
Module Image.

Record image : Type := {
  mode : string;
  size : nat * nat;
  getpixel : nat -> nat -> list Z
}.

(** [im.convert('RGB')] on an "RGBA" image: the alpha band is dropped. *)
Definition convert_RGBA_to_RGB (im : image) : image := {|
  mode := "RGB";
  size := size im;
  getpixel := fun x y => firstn 3 (getpixel im x y) |}.

(** One pixel as [np.array] lays it out: a number for a one-band image,
    a vector of the bands otherwise. *)
Definition pixel_entry (bands : list Z) : ndarray :=
  match bands with
  | [v] => Scalar (inject_Z v)
  | _ => NDArr (map (fun v => Scalar (inject_Z v)) bands)
  end.

(** [np.array(im)]: height rows of width pixels. *)
Definition to_array (im : image) : ndarray :=
  let '(w, h) := size im in
  NDArr (map (fun y =>
           NDArr (map (fun x => pixel_entry (getpixel im x y)) (seq 0 w)))
         (seq 0 h)).

End Image.

(** A loaded Keras model: [model.predict] maps a batch to one row of class
    scores per batch element, or raises. *)
Record keras_model : Type := {
  model_predict : ndarray -> result (list (list Q))
}.

(** ** The predictor object and its surroundings *)

Record WastePredictor : Type := {
  model : option keras_model;
  model_loaded : bool;
  img_size : nat
}.

(** The dtypes of NumPy's floating-point scalars that occur here. *)
Inductive dtype : Type := float32 | float64.

(** What one call on NumPy's global generator yields, whichever the call
    is: the integer [randint(low, high)] returns, and the double of
    [[0, 1)] that [uniform] scales to its interval. *)
Record draw : Type := {
  randint_value : Z -> Z -> Z;
  double_value : Q
}.

(** What the module prints. *)
Inductive message : Type :=
| msg_demo_mode
| msg_not_found (path : string)
| msg_empty_file (path : string)
| msg_ensure_saved
| msg_loaded (path : string) (file_size : Z)
| msg_error_loading (e : exn)
| msg_model_path (path : string)
| msg_file_exists (file_size : Z).

Record environment : Type := {
  (** whether [import tensorflow] succeeded at module load *)
  TF_AVAILABLE : bool;
  (** the file system: the bytes of every existing file *)
  files : gmap string (list byte);
  (** Keras reading a model from the bytes of a file *)
  keras_deserialize : list byte -> result keras_model;
  (** PIL decoding the bytes of a file *)
  pil_decode : list byte -> result Image.image;
  (** PIL's [resize] with its default filter *)
  pil_resize : Image.image -> nat * nat -> Image.image;
  (** NumPy's global generator: what its calls yield, in the order made *)
  random_sample : nat -> draw;
  (** the dtype of [score * 100] for a score of the model and the Python
      int 100: the dtype of the scores from NumPy 2 on, [float64] under
      the promotion rules of NumPy 1 *)
  product_dtype : dtype
}.

Record world : Type := {
  self : WastePredictor;
  rng_pos : nat;
  stdout : list message
}.

(** ** Computations *)

Definition M (A : Type) : Type := world -> result A * world.

Definition ret {A : Type} (a : A) : M A := fun w => (Ok a, w).

Definition raise {A : Type} (e : exn) : M A := fun w => (Raise e, w).

Definition bind {A B : Type} (c : M A) (k : A -> M B) : M B :=
  fun w =>
    match c w with
    | (Ok a, w') => k a w'
    | (Raise e, w') => (Raise e, w')
    end.

Definition lift {A : Type} (r : result A) : M A := fun w => (r, w).

(** [try: body except Exception as e: handler(e)]. *)
Definition try_except {A : Type} (body : M A) (handler : exn -> M A) : M A :=
  fun w =>
    match body w with
    | (Ok a, w') => (Ok a, w')
    | (Raise e, w') => handler e w'
    end.

Notation "x <- c ;; k" := (bind c (fun x => k))
  (at level 100, c at next level, right associativity).
Notation "c ;; k" := (bind c (fun _ => k))
  (at level 100, right associativity).

Definition get_self : M WastePredictor := fun w => (Ok (self w), w).

Definition set_model (m : option keras_model) : M unit := fun w =>
  (Ok tt, {| self := {| model := m;
                        model_loaded := model_loaded (self w);
                        img_size := img_size (self w) |};
             rng_pos := rng_pos w; stdout := stdout w |}).

Definition set_model_loaded (b : bool) : M unit := fun w =>
  (Ok tt, {| self := {| model := model (self w);
                        model_loaded := b;
                        img_size := img_size (self w) |};
             rng_pos := rng_pos w; stdout := stdout w |}).

Definition set_img_size (n : nat) : M unit := fun w =>
  (Ok tt, {| self := {| model := model (self w);
                        model_loaded := model_loaded (self w);
                        img_size := n |};
             rng_pos := rng_pos w; stdout := stdout w |}).

Definition print (m : message) : M unit := fun w =>
  (Ok tt, {| self := self w; rng_pos := rng_pos w;
             stdout := stdout w ++ [m] |}).

(** ** Numbers and sequences *)

(** Rounding to the nearest integer, ties to the even one. *)
Definition round_half_even (x : Q) : Z :=
  let f := Qfloor x in
  match (x - inject_Z f ?= 1 # 2)%Q with
  | Lt => f
  | Gt => f + 1
  | Eq => if Z.even f then f else f + 1
  end.

(** [round(x, ndigits)] on a float. *)
Definition py_round (x : Q) (ndigits : nat) : Q :=
  let s := 10 ^ Z.of_nat ndigits in
  round_half_even (x * inject_Z s) # Z.to_pos s.

(** Binary floating point.  A format has [mantissa_bits] significant bits
    and no exponent below [min_exponent]: binary32 and binary64. *)
Definition mantissa_bits (d : dtype) : Z :=
  match d with float32 => 24 | float64 => 53 end.

Definition min_exponent (d : dtype) : Z :=
  match d with float32 => -149 | float64 => -1074 end.

(** The integer [g] with [2^(g-1) <= |x| < 2^g], for [x] other than 0. *)
Definition magnitude (x : Q) : Z :=
  let a := Z.abs (Qnum x) in
  let b := Zpos (Qden x) in
  let d := Z.log2 a - Z.log2 b in
  if b * 2 ^ Z.log2 a <=? a * 2 ^ Z.log2 b then d + 1 else d.

(** The exponent of the unit in the last place around [x]. *)
Definition quantum (d : dtype) (x : Q) : Z :=
  Z.max (magnitude x - mantissa_bits d) (min_exponent d).

(** [x.astype(d)]: the number of the format nearest to [x], ties to the
    even mantissa. *)
Definition astype (d : dtype) (x : Q) : Q :=
  if Qeq_bool x 0 then 0%Q
  else
    let e := quantum d x in
    Qred (inject_Z (round_half_even (x / 2 ^ e)) * 2 ^ e)%Q.

(** [a * b] computed in the dtype [d]: both operands are taken in [d] and
    the exact product is rounded to [d]. *)
Definition np_multiply (d : dtype) (a b : Q) : Q :=
  astype d (astype d a * astype d b)%Q.

(** [low + (high - low) * u] as [np.random.uniform] computes it, in
    double precision: the range, the product and the sum are each
    rounded. *)
Definition random_uniform (low high u : Q) : Q :=
  let range := astype float64 (high - low)%Q in
  astype float64 (low + astype float64 (range * u))%Q.

(** [np.argmax] scanning from the left: the running best is replaced only
    by a strictly larger element. *)
Fixpoint argmax_from (best_i : nat) (best : Q) (i : nat) (l : list Q) : nat :=
  match l with
  | [] => best_i
  | x :: rest =>
      match (best ?= x)%Q with
      | Lt => argmax_from i x (S i) rest
      | _ => argmax_from best_i best (S i) rest
      end
  end.

Definition np_argmax (l : list Q) : result Z :=
  match l with
  | [] => Raise (ValueError "attempt to get an argmax of an empty sequence")
  | x :: rest => Ok (Z.of_nat (argmax_from 0 x 1 rest))
  end.

(** [a[i]] on a sequence: negative indices count from the end. *)
Definition seq_getitem {A : Type} (l : list A) (i : Z) : result A :=
  let n := Z.of_nat (length l) in
  let j := if i <? 0 then i + n else i in
  if (0 <=? j) && (j <? n) then
    match l !! Z.to_nat j with
    | Some a => Ok a
    | None => Raise IndexError
    end
  else Raise IndexError.

(** The result dictionary [predict] builds. *)
Record PredictionResult : Type := {
  item : string;
  category : string;
  confidence : Q;
  tip : string;
  co2 : Q;
  color : string;
  icon : string;
  category_id : Z
}.

(** The dictionary assembled under [# Build result]. *)
Definition build_result (category_info : CategoryInfo) (category_id : Z)
    (confidence : Q) : PredictionResult := {|
  item := c_name category_info;
  category := c_type category_info;
  confidence := py_round confidence 1;
  tip := c_tip category_info;
  co2 := c_co2 category_info;
  color := c_color category_info;
  icon := c_icon category_info;
  category_id := category_id |}.

(** ** The module's functions *)

Section Predictor.

Variable env : environment.

(** *** Library calls *)

Definition os_path_exists (path : string) : M bool :=
  ret (match files env !! path with Some _ => true | None => false end).

Definition os_path_getsize (path : string) : M Z :=
  match files env !! path with
  | Some bytes => ret (Z.of_nat (length bytes))
  | None => raise (FileNotFoundError path)
  end.

(** [keras.models.load_model(path)].  The name [keras] is bound only when
    the import at the top of the module succeeded. *)
Definition keras_models_load_model (path : string) : M keras_model :=
  if TF_AVAILABLE env then
    match files env !! path with
    | Some bytes => lift (keras_deserialize env bytes)
    | None => raise (FileNotFoundError path)
    end
  else raise (OtherException "NameError").

Definition Image_open (path : string) : M Image.image :=
  match files env !! path with
  | Some bytes => lift (pil_decode env bytes)
  | None => raise (FileNotFoundError path)
  end.

(** One call on the global generator: it yields its draw and advances. *)
Definition np_random_draw : M draw := fun w =>
  (Ok (random_sample env (rng_pos w)),
   {| self := self w; rng_pos := S (rng_pos w); stdout := stdout w |}).

(** [np.random.randint(low, high)]: the generator's integer for these
    bounds. *)
Definition np_random_randint (low high : Z) : M Z :=
  if high <=? low then raise (ValueError "low >= high")
  else
    d <- np_random_draw ;;
    ret (randint_value d low high).

(** [np.random.uniform(low, high)]: the generator's unit double, scaled. *)
Definition np_random_uniform (low high : Q) : M Q :=
  d <- np_random_draw ;;
  ret (random_uniform low high (double_value d)).

(** *** [WastePredictor._load_model] *)

Definition _load_model (model_path : string) : M unit :=
  try_except
    (found <- os_path_exists model_path ;;
     if negb found then
       print (msg_not_found model_path) ;;
       set_model None ;;
       set_model_loaded false
     else
       file_size <- os_path_getsize model_path ;;
       if file_size =? 0 then
         print (msg_empty_file model_path) ;;
         print msg_ensure_saved ;;
         set_model None ;;
         set_model_loaded false
       else
         m <- keras_models_load_model model_path ;;
         set_model (Some m) ;;
         set_model_loaded true ;;
         print (msg_loaded model_path file_size))
    (fun e =>
       print (msg_error_loading e) ;;
       print (msg_model_path model_path) ;;
       found <- os_path_exists model_path ;;
       (if found then
          file_size <- os_path_getsize model_path ;;
          print (msg_file_exists file_size)
        else ret tt) ;;
       set_model None ;;
       set_model_loaded false).

(** *** [WastePredictor.__init__] *)

(** [model_path and os.path.exists(model_path) and TF_AVAILABLE]: [None]
    and the empty string are false, and the later conjuncts are only
    evaluated after the earlier ones held. *)
Definition __init__ (model_path : option string) : M unit :=
  set_model None ;;
  set_model_loaded false ;;
  set_img_size 224 ;;
  match model_path with
  | Some path =>
      if String.eqb path "" then print msg_demo_mode
      else
        found <- os_path_exists path ;;
        if found && TF_AVAILABLE env then _load_model path
        else print msg_demo_mode
  | None => print msg_demo_mode
  end.

(** *** [WastePredictor.preprocess_image] *)

Definition preprocess_image (image_path : string) : M ndarray :=
  me <- get_self ;;
  image <- Image_open image_path ;;
  let image :=
    if String.eqb (Image.mode image) "RGBA"
    then Image.convert_RGBA_to_RGB image else image in
  let image := pil_resize env image (img_size me, img_size me) in
  let image_array := np_divide (Image.to_array image) 255 in
  let image_array := np_expand_dims0 image_array in
  ret image_array.

(** *** [WastePredictor.predict] *)

Definition predict (image_path : string) : M PredictionResult :=
  me <- get_self ;;
  cc <- match model_loaded me, model me with
        | true, Some m =>
            processed_image <- preprocess_image image_path ;;
            predictions <- lift (model_predict m processed_image) ;;
            row <- lift (seq_getitem predictions 0) ;;
            category_id <- lift (np_argmax row) ;;
            p <- lift (seq_getitem row category_id) ;;
            ret (category_id, np_multiply (product_dtype env) p 100)
        | _, _ =>
            category_id <- np_random_randint 0 (len WASTE_CATEGORIES) ;;
            confidence <- np_random_uniform 85 99 ;;
            ret (category_id, confidence)
        end ;;
  let '(category_id, confidence) := cc in
  category_info <- lift (dict_getitem WASTE_CATEGORIES category_id) ;;
  ret (build_result category_info category_id confidence).

(** *** [WastePredictor.predict_batch] *)

(** [[self.predict(path) for path in image_paths]]: the paths are visited
    from the left, each result is appended, an exception leaves the
    comprehension. *)
Fixpoint predict_batch (image_paths : list string) : M (list PredictionResult) :=
  match image_paths with
  | [] => ret []
  | path :: rest =>
      r <- predict path ;;
      rs <- predict_batch rest ;;
      ret (r :: rs)
  end.

End Predictor.

(** * Vocabulary of the statements *)

(** The two steady states of a predictor: [predict] takes the model branch
    exactly when the flag is set and a model is held. *)
Definition Loaded (w : world) (m : keras_model) : Prop :=
  model_loaded (self w) = true /\ model (self w) = Some m.

Definition Fallback (w : world) : Prop :=
  model_loaded (self w) = false \/ model (self w) = None.

(** The world after [n] further draws from the generator. *)
Definition after_draws (n : nat) (w : world) : world :=
  {| self := self w; rng_pos := n + rng_pos w; stdout := stdout w |}.

(** A synthetic prediction: two draws from the generator, decorated from
    the table.  Neither the image nor a model takes part. *)
Definition demo_prediction (env : environment) (w : world)
    : result PredictionResult * world :=
  let category_id := randint_value (random_sample env (rng_pos w)) 0 6 in
  let confidence :=
    random_uniform 85 99 (double_value (random_sample env (S (rng_pos w)))) in
  match dict_getitem WASTE_CATEGORIES category_id with
  | Ok info =>
      (Ok (build_result info category_id confidence), after_draws 2 w)
  | Raise e => (Raise e, after_draws 2 w)
  end.

(** The predictor [__init__] leaves when no model is loaded. *)
Definition no_model : WastePredictor :=
  {| model := None; model_loaded := false; img_size := 224 |}.

(** An [n] by [n] image whose every pixel has the bands [bands]. *)
Definition solid_color (im : Image.image) (n : nat) (bands : list Z) : Prop :=
  Image.size im = (n, n) /\
  forall x y : nat, Image.getpixel im x y = bands.

(** What every resampling filter of [resize] does: the mode stays, the
    size is the requested one, and an image of one colour keeps it. *)
Definition resize_contract (env : environment) : Prop :=
  forall (im : Image.image) (size : nat * nat),
    Image.mode (pil_resize env im size) = Image.mode im /\
    Image.size (pil_resize env im size) = size /\
    forall bands : list Z,
      (forall x y : nat, Image.getpixel im x y = bands) ->
      forall x y : nat, Image.getpixel (pil_resize env im size) x y = bands.

(** NumPy's contract for its generator: [randint(low, high)] lies in
    [[low, high)], and the unit double lies in [[0, 1)]. *)
Definition generator_ok (env : environment) : Prop :=
  forall n : nat,
    (forall low high : Z,
        low < high ->
        low <= randint_value (random_sample env n) low high < high) /\
    (0 <= double_value (random_sample env n) < 1)%Q.

(** The same environment with another generator. *)
Definition with_samples (f : nat -> draw) (env : environment) : environment := {|
  TF_AVAILABLE := TF_AVAILABLE env;
  files := files env;
  keras_deserialize := keras_deserialize env;
  pil_decode := pil_decode env;
  pil_resize := pil_resize env;
  random_sample := f;
  product_dtype := product_dtype env |}.

(** [x] is the number of the format [d] nearest to [y], ties to the even
    mantissa: with [g] the magnitude of [y] and [e] the exponent of the
    unit in the last place there, [x] is [n * 2^e] for the integer [n]
    nearest to [y / 2^e], the even one of the two when [y / 2^e] lies
    half-way. *)
Definition nearest_float (d : dtype) (y x : Q) : Prop :=
  (y == 0 /\ x == 0)%Q \/
  exists g n : Z,
    (2 ^ (g - 1) <= Qabs y < 2 ^ g)%Q /\
    let e := Z.max (g - mantissa_bits d) (min_exponent d) in
    (x == inject_Z n * 2 ^ e)%Q /\
    (Qabs (inject_Z n - y / 2 ^ e) <= 1 # 2)%Q /\
    ((Qabs (inject_Z n - y / 2 ^ e) == 1 # 2)%Q -> Z.even n = true).

(** [c] is the whole number of tenths nearest to [x], the even one of the
    two when [x] lies half-way. *)
Definition nearest_tenth (x c : Q) : Prop :=
  exists m : Z,
    c = m # 10 /\
    (Qabs (c - x) <= 1 # 20)%Q /\
    ((Qabs (c - x) == 1 # 20)%Q -> Z.even m = true).

(** [p] is the largest element of [l], and [k] is the first index that
    holds it. *)
Definition first_maximum (l : list Q) (k : nat) (p : Q) : Prop :=
  l !! k = Some p /\
  (forall (j : nat) (q : Q), l !! j = Some q -> (q <= p)%Q) /\
  (forall (j : nat) (q : Q), (j < k)%nat -> l !! j = Some q -> (q < p)%Q).

(** [sum(l)]. *)
Definition Qsum (l : list Q) : Q := fold_right Qplus 0%Q l.

(** A score vector as a softmax layer of [N] units produces it: [N]
    non-negative numbers whose sum is 1 up to [tol]. *)
Definition probability_vector (tol : Q) (probs : list Q) : Prop :=
  Z.of_nat (length probs) = len WASTE_CATEGORIES /\
  Forall (fun p => (0 <= p)%Q) probs /\
  (Qabs (Qsum probs - 1) <= tol)%Q.

(** Every batch a model returns starts with such a vector. *)
Definition softmax_model (tol : Q) (m : keras_model) : Prop :=
  forall (t : ndarray) (out : list (list Q)),
    model_predict m t = Ok out ->
    exists (probs : list Q) (rest : list (list Q)),
      out = probs :: rest /\ probability_vector tol probs.

(** * Sample data

    A small concrete environment on which the functions can be run. *)

Module Sample.

(** An image of one colour. *)
Definition solid (mode : string) (n : nat) (bands : list Z) : Image.image := {|
  Image.mode := mode;
  Image.size := (n, n);
  Image.getpixel := fun _ _ => bands |}.

(** Nearest-neighbour resampling, one of the filters [resize] offers. *)
Definition nearest_resize (im : Image.image) (size : nat * nat) : Image.image := {|
  Image.mode := Image.mode im;
  Image.size := size;
  Image.getpixel := fun x y =>
    Image.getpixel im
      (x * fst (Image.size im) / fst size)%nat
      (y * snd (Image.size im) / snd size)%nat |}.

(** A six-class model whose scores tie at indices 2 and 3. *)
Definition tied_scores : list Q :=
  [1 # 10; 2 # 10; 3 # 10; 3 # 10; 1 # 20; 1 # 20]%Q.

Definition tied_model : keras_model :=
  {| model_predict := fun _ => Ok [tied_scores] |}.

Definition deserialize (bytes : list byte) : result keras_model :=
  match bytes with
  | [x01] => Ok tied_model
  | _ => Raise (ValueError "file signature not found")
  end.

Definition decode (bytes : list byte) : result Image.image :=
  match bytes with
  | [x02] => Ok (solid "RGB" 2 [255; 0; 0])
  | [x03] => Ok (solid "RGBA" 3 [0; 128; 255; 64])
  | [x04] => Ok (solid "L" 2 [128])
  | [x05] => Ok (solid "LA" 2 [128; 255])
  | _ => Raise UnidentifiedImageError
  end.

Definition disk : gmap string (list byte) :=
  list_to_map
    [ ("model.h5", [x01]); ("empty.h5", []); ("corrupt.h5", [x00]);
      ("red.png", [x02]); ("blue.png", [x03]); ("gray.png", [x04]);
      ("gray_alpha.png", [x05]); ("notes.txt", [x68; x69]) ].

(** A generator whose unit values are 0, 1/7, 2/7, ..., 6/7, 0, 1/7, ...
    and whose integers sit at the same fraction of their interval. *)
Definition samples (n : nat) : draw := {|
  randint_value := fun low high =>
    low + Qfloor ((Z.of_nat (n mod 7) # 7) * inject_Z (high - low));
  double_value := Z.of_nat (n mod 7) # 7 |}.

Definition env (tf : bool) : environment := {|
  TF_AVAILABLE := tf;
  files := disk;
  keras_deserialize := deserialize;
  pil_decode := decode;
  pil_resize := nearest_resize;
  random_sample := samples;
  product_dtype := float32 |}.

(** What preprocessing makes of "red.png" for a 224-pixel input. *)
Definition red_tensor : ndarray :=
  np_expand_dims0
    (np_divide
       (Image.to_array
          (nearest_resize (solid "RGB" 2 [255; 0; 0]) (224, 224)%nat))
       255).

(** The world a constructor call starts from. *)
Definition blank : world := {|
  self := {| model := None; model_loaded := false; img_size := 0 |};
  rng_pos := 0;
  stdout := [] |}.

(** A predictor in demo mode and one holding [tied_model]. *)
Definition demo : world := {|
  self := {| model := None; model_loaded := false; img_size := 224 |};
  rng_pos := 0;
  stdout := [msg_demo_mode] |}.

Definition loaded : world := {|
  self := {| model := Some tied_model; model_loaded := true; img_size := 224 |};
  rng_pos := 0;
  stdout := [msg_loaded "model.h5" 1] |}.

End Sample.

(** * Further sample data *)

Module Wide.

(** An eight-class model, as the training script builds by default; its
    largest score sits at index 7. *)
Definition scores : list Q :=
  [1 # 20; 1 # 20; 1 # 10; 1 # 10; 1 # 10; 1 # 10; 1 # 10; 4 # 10]%Q.

Definition wide_model : keras_model :=
  {| model_predict := fun _ => Ok [scores] |}.

Definition loaded : world := {|
  self := {| model := Some wide_model; model_loaded := true; img_size := 224 |};
  rng_pos := 0;
  stdout := [] |}.

End Wide.

(** The tensor of an [s] by [s] image whose every pixel is ([r], [g], [b]):
    one batch element, [s] rows of [s] pixels, each the three bands scaled
    by 1/255. *)
Definition solid_tensor (s : nat) (r g b : Z) : ndarray :=
  NDArr [NDArr (repeat
                  (NDArr (repeat
                            (NDArr [Scalar (inject_Z r / 255);
                                    Scalar (inject_Z g / 255);
                                    Scalar (inject_Z b / 255)]) s)) s)].

(** * The web service: backend/config.py and backend/app.py

    The service keeps one predictor for its whole life and answers upload
    requests with it.  Strings are sequences of bytes; [lower] acts on the
    ASCII letters, which is all of [str.lower] on ASCII text, and the
    statements that depend on the case mapping of other characters ask
    for ASCII text.  The disk of the service maps a path to the bytes of
    the file and the time of its last modification; directories are
    implicit in the paths. *)

(** ** Strings and paths *)

(** [c in s], for a single character [c]. *)
Fixpoint str_contains (c : ascii) (s : string) : bool :=
  match s with
  | EmptyString => false
  | String a rest => Ascii.eqb a c || str_contains c rest
  end.

(** The parts of [s] before and after the last [sep], if there is one. *)
Fixpoint rsplit_last (sep : ascii) (s : string) : option (string * string) :=
  match s with
  | EmptyString => None
  | String a rest =>
      match rsplit_last sep rest with
      | Some (before, after) => Some (String a before, after)
      | None => if Ascii.eqb a sep then Some (EmptyString, rest) else None
      end
  end.

(** [s.rsplit(sep, 1)]. *)
Definition str_rsplit1 (sep : ascii) (s : string) : list string :=
  match rsplit_last sep s with
  | Some (before, after) => [before; after]
  | None => [s]
  end.

(** [s.split(sep)]. *)
Fixpoint str_split (sep : ascii) (s : string) : list string :=
  match s with
  | EmptyString => [EmptyString]
  | String a rest =>
      if Ascii.eqb a sep then EmptyString :: str_split sep rest
      else
        match str_split sep rest with
        | piece :: pieces => String a piece :: pieces
        | [] => [String a EmptyString]
        end
  end.

Definition ascii_lower (a : ascii) : ascii :=
  let n := N_of_ascii a in
  if ((65 <=? n) && (n <=? 90))%N then ascii_of_N (n + 32) else a.

(** [s.lower()] on ASCII text; bytes outside ASCII are left as they are. *)
Fixpoint str_lower (s : string) : string :=
  match s with
  | EmptyString => EmptyString
  | String a rest => String (ascii_lower a) (str_lower rest)
  end.

(** [s.isascii()]. *)
Fixpoint str_isascii (s : string) : bool :=
  match s with
  | EmptyString => true
  | String a rest => (N_of_ascii a <? 128)%N && str_isascii rest
  end.

(** [sep.join(pieces)]. *)
Fixpoint str_join (sep : string) (pieces : list string) : string :=
  match pieces with
  | [] => EmptyString
  | [piece] => piece
  | piece :: rest => piece ++ sep ++ str_join sep rest
  end.

(** [s.endswith('/')]. *)
Fixpoint ends_with_slash (s : string) : bool :=
  match s with
  | EmptyString => false
  | String a EmptyString => Ascii.eqb a "/"
  | String _ rest => ends_with_slash rest
  end.

(** [os.path.isabs] and [os.path.join] of two parts, on POSIX. *)
Definition os_path_isabs (path : string) : bool := String.prefix "/" path.

Definition os_path_join (a b : string) : string :=
  if os_path_isabs b then b
  else if String.eqb a "" || ends_with_slash a then a ++ b
  else a ++ "/" ++ b.

(** ** backend/config.py *)

(** The attributes of a configuration class that the service reads.
    [TESTING] is absent from the base class. *)
Record ConfigAttrs : Type := {
  DEBUG : bool;
  TESTING : option bool;
  PORT : Z;
  MODEL_PATH : string;
  UPLOAD_FOLDER : string;
  MAX_CONTENT_LENGTH : Z;
  ALLOWED_EXTENSIONS : gset string
}.

Section Configuration.

(** Python's [int] on a string: the integer it denotes, or the exception it
    raises. *)
Variable int_str : string -> result Z.

(** [os.environ] after [load_dotenv()], and the directory of config.py. *)
Variable environ : gmap string string.
Variable BASE_DIR : string.

(** [os.getenv(key, default)] and [os.getenv(key)]. *)
Definition os_getenv (key default : string) : string :=
  match environ !! key with
  | Some v => v
  | None => default
  end.

(** [int(os.getenv(key, default))] for an integer [default]: a variable
    that is set is converted from its string, the default is an integer
    already. *)
Definition int_getenv (key : string) (default : Z) : result Z :=
  match environ !! key with
  | Some v => int_str v
  | None => Ok default
  end.

Definition Config_MODEL_PATH : string :=
  let default_model_path :=
    os_path_join (os_path_join BASE_DIR "model") "model.h5" in
  match environ !! "MODEL_PATH" with
  | Some model_path_env =>
      if String.eqb model_path_env "" then default_model_path
      else if os_path_isabs model_path_env then model_path_env
      else os_path_join BASE_DIR model_path_env
  | None => default_model_path
  end.

(** [class Config].  The body of the class runs from top to bottom when
    the module is imported; an exception raised by one of the two
    conversions ends the import. *)
Definition Config : result ConfigAttrs :=
  let debug := String.eqb (str_lower (os_getenv "DEBUG" "False")) "true" in
  match int_getenv "PORT" 5000 with
  | Raise e => Raise e
  | Ok port =>
      let model_path := Config_MODEL_PATH in
      let upload_folder :=
        os_path_join BASE_DIR (os_getenv "UPLOAD_FOLDER" "uploads") in
      match int_getenv "MAX_CONTENT_LENGTH" (16 * 1024 * 1024) with
      | Raise e => Raise e
      | Ok max_content_length =>
          Ok {| DEBUG := debug;
                TESTING := None;
                PORT := port;
                MODEL_PATH := model_path;
                UPLOAD_FOLDER := upload_folder;
                MAX_CONTENT_LENGTH := max_content_length;
                ALLOWED_EXTENSIONS :=
                  list_to_set
                    (str_split ","
                       (os_getenv "ALLOWED_EXTENSIONS"
                          "png,jpg,jpeg,gif,webp")) |}
      end
  end.

(** The rest of the module, for the class [base] that the body of
    [Config] produced. *)

(** A subclass of [Config] that sets [DEBUG] and [TESTING]. *)
Definition subclass (base : ConfigAttrs) (debug testing : bool)
    : ConfigAttrs := {|
  DEBUG := debug;
  TESTING := Some testing;
  PORT := PORT base;
  MODEL_PATH := MODEL_PATH base;
  UPLOAD_FOLDER := UPLOAD_FOLDER base;
  MAX_CONTENT_LENGTH := MAX_CONTENT_LENGTH base;
  ALLOWED_EXTENSIONS := ALLOWED_EXTENSIONS base |}.

Definition DevelopmentConfig (base : ConfigAttrs) : ConfigAttrs :=
  subclass base true false.
Definition ProductionConfig (base : ConfigAttrs) : ConfigAttrs :=
  subclass base false false.
Definition TestingConfig (base : ConfigAttrs) : ConfigAttrs :=
  subclass base true true.

(** The dictionary [config]. *)
Definition config (base : ConfigAttrs) : gmap string ConfigAttrs :=
  list_to_map
    [ ("development", DevelopmentConfig base);
      ("production", ProductionConfig base);
      ("testing", TestingConfig base);
      ("default", DevelopmentConfig base) ].

(** [config[key]] and [config.get(key, default)]. *)
Definition config_getitem (base : ConfigAttrs) (key : string)
    : result ConfigAttrs :=
  match config base !! key with
  | Some c => Ok c
  | None => Raise (OtherException "KeyError")
  end.

Definition get_config (base : ConfigAttrs) : result ConfigAttrs :=
  let env := os_getenv "FLASK_ENV" "development" in
  match config_getitem base "default" with
  | Ok default =>
      Ok (match config base !! env with Some c => c | None => default end)
  | Raise e => Raise e
  end.

(** What app.py does to obtain its configuration: [from config import
    get_config], which runs the module, then [get_config()]. *)
Definition app_get_config : result ConfigAttrs :=
  match Config with
  | Ok base => get_config base
  | Raise e => Raise e
  end.

End Configuration.

(** ** backend/app.py *)

(** An uploaded file of a request, and the request. *)
Record FileStorage : Type := {
  filename : string;
  stream : list byte
}.

Record request : Type := {
  method : string;
  request_files : gmap string FileStorage
}.

(** What a handler answers: the JSON body and the status code. *)
Inductive body : Type :=
| body_empty
| body_error (error message : string)
| body_internal_error (details : string)
| body_success (data : PredictionResult) (timestamp : string).

Record response : Type := {
  response_body : body;
  status : Z
}.

(** The lines sent to the logger. *)
Inductive log_entry : Type :=
| log_deleted_old_file (name : string)
| log_cleanup_error (e : exn)
| log_no_image
| log_no_file_selected
| log_invalid_file_type (name : string)
| log_processing (name : string)
| log_deleted_temporary (name : string)
| log_delete_error (e : exn)
| log_analysis_complete (item : string) (confidence : Q)
| log_analyze_error (e : exn)
| log_traceback.

(** What the service is started with: the configuration, the libraries of
    the predictor, and the library calls of the handlers. *)
Record services : Type := {
  app_config : ConfigAttrs;
  libraries : environment;
  (** the successive readings of the system clock, in seconds *)
  clock : nat -> Q;
  (** [str] of a float timestamp *)
  str_timestamp : Q -> string;
  (** [datetime.isoformat] of a reading *)
  isoformat : Q -> string;
  (** [werkzeug.utils.secure_filename] *)
  secure_filename : string -> string;
  (** [str] of an exception *)
  str_exn : exn -> string
}.

Record app_world : Type := {
  predictor : world;
  disk : gmap string (list byte * Q);
  clock_pos : nat;
  log : list log_entry
}.

Definition App (A : Type) : Type := app_world -> result A * app_world.

Definition app_ret {A : Type} (a : A) : App A := fun aw => (Ok a, aw).

Definition app_raise {A : Type} (e : exn) : App A := fun aw => (Raise e, aw).

Definition app_bind {A B : Type} (c : App A) (k : A -> App B) : App B :=
  fun aw =>
    match c aw with
    | (Ok a, aw') => k a aw'
    | (Raise e, aw') => (Raise e, aw')
    end.

Definition app_try {A : Type} (body : App A) (handler : exn -> App A)
    : App A :=
  fun aw =>
    match body aw with
    | (Ok a, aw') => (Ok a, aw')
    | (Raise e, aw') => handler e aw'
    end.

Notation "'let*' x ':=' c 'in' k" := (app_bind c (fun x => k))
  (at level 10, x name, c at level 100, k at level 200).

(** [for x in xs: step(x)]. *)
Fixpoint app_for {A : Type} (xs : list A) (step : A -> App unit) : App unit :=
  match xs with
  | [] => app_ret tt
  | x :: rest => let* _ := step x in app_for rest step
  end.

(** The predictor's libraries, looking at the disk as it is now. *)
Definition libraries_on (disk : gmap string (list byte * Q))
    (env : environment) : environment := {|
  TF_AVAILABLE := TF_AVAILABLE env;
  files := fst <$> disk;
  keras_deserialize := keras_deserialize env;
  pil_decode := pil_decode env;
  pil_resize := pil_resize env;
  random_sample := random_sample env;
  product_dtype := product_dtype env |}.

(** [folder/] : the prefix of the paths below [folder]. *)
Definition dir_prefix (folder : string) : string :=
  if ends_with_slash folder then folder else folder ++ "/".

(** The name of [path] when it lies directly in [folder]. *)
Definition child_name (folder path : string) : option string :=
  let pre := dir_prefix folder in
  if String.prefix pre path then
    let name :=
      String.substring (String.length pre)
        (String.length path - String.length pre) path in
    if String.eqb name "" || str_contains "/" name then None else Some name
  else None.

(** [Path(folder).glob('*')]: the entries directly in [folder]. *)
Definition glob_star (folder : string) (d : gmap string (list byte * Q))
    : list string :=
  List.filter (fun path => match child_name folder path with
                           | Some _ => true
                           | None => false
                           end)
              (map fst (map_to_list d)).

Section Service.

Variable sv : services.

Definition logger (entry : log_entry) : App unit := fun aw =>
  (Ok tt, {| predictor := predictor aw; disk := disk aw;
             clock_pos := clock_pos aw; log := log aw ++ [entry] |}).

(** One reading of the clock: [datetime.now().timestamp()]. *)
Definition datetime_now : App Q := fun aw =>
  (Ok (clock sv (clock_pos aw)),
   {| predictor := predictor aw; disk := disk aw;
      clock_pos := S (clock_pos aw); log := log aw |}).

Definition set_disk (d : gmap string (list byte * Q)) : App unit := fun aw =>
  (Ok tt, {| predictor := predictor aw; disk := d;
             clock_pos := clock_pos aw; log := log aw |}).

Definition get_disk : App (gmap string (list byte * Q)) := fun aw =>
  (Ok (disk aw), aw).

(** [path.is_file()], [path.stat().st_mtime], [path.unlink()] and
    [os.remove(path)]. *)
Definition is_file (path : string) : App bool :=
  let* d := get_disk in
  app_ret (match d !! path with Some _ => true | None => false end).

Definition stat_st_mtime (path : string) : App Q :=
  let* d := get_disk in
  match d !! path with
  | Some (_, mtime) => app_ret mtime
  | None => app_raise (FileNotFoundError path)
  end.

Definition os_remove (path : string) : App unit :=
  let* d := get_disk in
  match d !! path with
  | Some _ => set_disk (delete path d)
  | None => app_raise (FileNotFoundError path)
  end.

(** [file.save(path)]: the bytes are written and stamped with the time. *)
Definition file_save (file : FileStorage) (path : string) : App unit :=
  let* mtime := datetime_now in
  let* d := get_disk in
  set_disk (<[path := (stream file, mtime)]> d).

(** [predictor.predict(path)] on the service's predictor. *)
Definition predictor_predict (path : string) : App PredictionResult :=
  fun aw =>
    let (r, w') :=
      predict (libraries_on (disk aw) (libraries sv)) path (predictor aw) in
    (r, {| predictor := w'; disk := disk aw;
           clock_pos := clock_pos aw; log := log aw |}).

(** *** [allowed_file] *)

Definition allowed_file (name : string) : result bool :=
  if str_contains "." name then
    match seq_getitem (str_rsplit1 "." name) 1 with
    | Ok extension =>
        Ok (bool_decide
              (str_lower extension ∈ ALLOWED_EXTENSIONS (app_config sv)))
    | Raise e => Raise e
    end
  else Ok false.

(** *** [cleanup_old_files] *)

Definition cleanup_old_files : App unit :=
  app_try
    (let upload_folder := UPLOAD_FOLDER (app_config sv) in
     let* current_time := datetime_now in
     let* d := get_disk in
     app_for (glob_star upload_folder d) (fun file_path =>
       let* regular := is_file file_path in
       if regular then
         let* mtime := stat_st_mtime file_path in
         let file_age := (current_time - mtime)%Q in
         if Qlt_le_dec 3600 file_age then
           let* _ := os_remove file_path in
           logger (log_deleted_old_file
                     (default "" (child_name upload_folder file_path)))
         else app_ret tt
       else app_ret tt))
    (fun e => logger (log_cleanup_error e)).

(** *** [analyze_image] *)

Definition analyze_image (req : request) : App response :=
  if String.eqb (method req) "OPTIONS" then
    app_ret {| response_body := body_empty; status := 204 |}
  else
    app_try
      (let* _ := cleanup_old_files in
       match request_files req !! "image" with
       | None =>
           let* _ := logger log_no_image in
           app_ret {| response_body :=
                        body_error "No image provided"
                                   "Please upload an image file";
                      status := 400 |}
       | Some file =>
           if String.eqb (filename file) "" then
             let* _ := logger log_no_file_selected in
             app_ret {| response_body :=
                          body_error "No file selected"
                                     "Please select a file to upload";
                        status := 400 |}
           else
             match allowed_file (filename file) with
             | Raise e => app_raise e
             | Ok false =>
                 let* _ := logger (log_invalid_file_type (filename file)) in
                 app_ret {| response_body :=
                              body_error "Invalid file type"
                                ("Allowed types: " ++
                                 str_join ", "
                                   (elements
                                      (ALLOWED_EXTENSIONS (app_config sv))));
                            status := 400 |}
             | Ok true =>
                 let* now := datetime_now in
                 let name :=
                   secure_filename sv
                     (str_timestamp sv now ++ "_" ++ filename file) in
                 let filepath :=
                   os_path_join (UPLOAD_FOLDER (app_config sv)) name in
                 let* _ := file_save file filepath in
                 let* _ := logger (log_processing name) in
                 let* result := predictor_predict filepath in
                 let* _ :=
                   app_try
                     (let* _ := os_remove filepath in
                      logger (log_deleted_temporary name))
                     (fun e => logger (log_delete_error e)) in
                 let* _ :=
                   logger (log_analysis_complete (item result)
                                                 (confidence result)) in
                 let* utcnow := datetime_now in
                 app_ret {| response_body :=
                              body_success result (isoformat sv utcnow);
                            status := 200 |}
             end
       end)
      (fun e =>
         let* _ := logger (log_analyze_error e) in
         let* _ := logger log_traceback in
         app_ret {| response_body :=
                      body_internal_error
                        (if DEBUG (app_config sv) then str_exn sv e
                         else "Please try again");
                    status := 500 |}).

(** *** [health] and [api_stats] *)

(** The answer of [/health]: the flag of the predictor, with status 200. *)
Definition health : App (bool * Z) := fun aw =>
  (Ok (model_loaded (self (predictor aw)), 200), aw).

(** The answer of [/api/stats]: total analyses, the flag, the number of
    categories, with status 200. *)
Definition api_stats : App (Z * bool * Z * Z) := fun aw =>
  (Ok (0, model_loaded (self (predictor aw)), len WASTE_CATEGORIES, 200), aw).

End Service.

(** The predictor as the module creates it when it is imported:
    [predictor = WastePredictor(model_path=app.config['MODEL_PATH'])]. *)
Definition create_predictor (sv : services) : App unit := fun aw =>
  let (r, w') :=
    __init__ (libraries_on (disk aw) (libraries sv))
             (Some (MODEL_PATH (app_config sv))) (predictor aw) in
  (r, {| predictor := w'; disk := disk aw;
         clock_pos := clock_pos aw; log := log aw |}).

(** ** Vocabulary of the statements about the service *)

(** The path [analyze_image] saves an upload under, for the clock reading
    [now]. *)
Definition temp_path (sv : services) (now : Q) (file : FileStorage) : string :=
  os_path_join (UPLOAD_FOLDER (app_config sv))
    (secure_filename sv (str_timestamp sv now ++ "_" ++ filename file)).

(** A request that passes the three checks of [analyze_image]. *)
Definition valid_upload (sv : services) (req : request) (file : FileStorage)
    : Prop :=
  method req <> "OPTIONS" /\
  request_files req !! "image" = Some file /\
  filename file <> "" /\
  allowed_file sv (filename file) = Ok true.

(** A file directly in the upload folder, last modified more than an hour
    before [now]. *)
Definition expired (sv : services) (now : Q) (path : string) (mtime : Q)
    : Prop :=
  is_Some (child_name (UPLOAD_FOLDER (app_config sv)) path) /\
  (3600 < now - mtime)%Q.

(** ** A sample service *)

Module Desk.

(** A reading of decimal numerals: digits only, at least one. *)
Fixpoint digits (acc : Z) (s : string) : option Z :=
  match s with
  | EmptyString => Some acc
  | String a rest =>
      let n := Z.of_N (N_of_ascii a) in
      if (48 <=? n) && (n <=? 57) then digits (10 * acc + (n - 48)) rest
      else None
  end.

Definition decimal (s : string) : result Z :=
  match s, digits 0 s with
  | String _ _, Some n => Ok n
  | _, _ => Raise (ValueError "invalid literal for int() with base 10")
  end.

(** The class [Config] in the directory /srv/backend, for an environment
    its body accepts. *)
Definition base (environ : gmap string string) : ConfigAttrs :=
  match Config decimal environ "/srv/backend" with
  | Ok c => c
  | Raise _ =>
      {| DEBUG := false; TESTING := None; PORT := 0; MODEL_PATH := "";
         UPLOAD_FOLDER := ""; MAX_CONTENT_LENGTH := 0;
         ALLOWED_EXTENSIONS := ∅ |}
  end.

Definition config : ConfigAttrs := DevelopmentConfig (base ∅).

Definition production : ConfigAttrs :=
  ProductionConfig (base {[ "DEBUG" := "true" ]}).

(** A configuration whose allowed extensions were written in capitals. *)
Definition capitals : ConfigAttrs :=
  DevelopmentConfig (base {[ "ALLOWED_EXTENSIONS" := "PNG,JPG" ]}).

Definition describe (e : exn) : string :=
  match e with
  | UnidentifiedImageError => "cannot identify image file"
  | KeyError _ => "key"
  | _ => "error"
  end.

(** A service whose clock reads 10000, 10001, ... seconds. *)
Definition service (cfg : ConfigAttrs) : services := {|
  app_config := cfg;
  libraries := Sample.env true;
  clock := fun n => inject_Z (10000 + Z.of_nat n);
  str_timestamp := fun _ => "10001.0";
  isoformat := fun _ => "1970-01-01T02:46:43";
  secure_filename := fun name => name;
  str_exn := describe |}.

(** A disk with the model, an upload left two hours ago, one left a minute
    ago, and a file below a subdirectory of the upload folder. *)
Definition shelves : gmap string (list byte * Q) :=
  list_to_map
    [ ("/srv/backend/model/model.h5", ([x01], 0%Q));
      ("/srv/backend/uploads/stale.png", ([x02], 2800%Q));
      ("/srv/backend/uploads/fresh.png", ([x02], 9940%Q));
      ("/srv/backend/uploads/kept/deep.png", ([x02], 0%Q)) ].

Definition start (p : world) : app_world := {|
  predictor := p;
  disk := shelves;
  clock_pos := 0;
  log := [] |}.

Definition upload (name : string) (bytes : list byte) : request := {|
  method := "POST";
  request_files := {[ "image" := {| filename := name; stream := bytes |} ]} |}.

End Desk.

(** * Properties *)

(** ** The category table *)

Lemma WASTE_CATEGORIES_outside (i : Z) :
  i < 0 \/ 6 <= i -> WASTE_CATEGORIES !! i = None.
Proof.
  intros Hi. unfold WASTE_CATEGORIES, WASTE_CATEGORIES_items. simpl.
  repeat (rewrite lookup_insert_ne by lia). apply lookup_empty.
Qed.

Lemma WASTE_CATEGORIES_inside (i : Z) :
  0 <= i < 6 ->
  WASTE_CATEGORIES !! i =
  Some (nth (Z.to_nat i)
            [Glass; Metal; Organic_Waste; Paper; Plastic; Textiles] Glass).
Proof.
  intros Hi.
  assert (i = 0 \/ i = 1 \/ i = 2 \/ i = 3 \/ i = 4 \/ i = 5) as Hc by lia.
  destruct Hc as [-> | [-> | [-> | [-> | [-> | ->]]]]]; reflexivity.
Qed.

Lemma len_WASTE_CATEGORIES : len WASTE_CATEGORIES = 6.
Proof. reflexivity. Qed.

(** C3.  The table has six entries; the lookup [WASTE_CATEGORIES[i]]
    returns the entry written under key [i] for every integer [i] of
    [[0, 6)], and fails with [KeyError i] for every [i < 0] and every
    [i >= 6]. *)
Theorem taxonomy_lookup (i : Z) :
  len WASTE_CATEGORIES = 6 /\
  dict_getitem WASTE_CATEGORIES i =
    if (0 <=? i) && (i <? len WASTE_CATEGORIES)
    then Ok (nth (Z.to_nat i)
                 [Glass; Metal; Organic_Waste; Paper; Plastic; Textiles] Glass)
    else Raise (KeyError i).
Proof.
  split; [reflexivity |].
  rewrite len_WASTE_CATEGORIES. unfold dict_getitem.
  destruct ((0 <=? i) && (i <? 6)) eqn:E.
  - apply andb_true_iff in E as [H1 H2].
    apply Z.leb_le in H1. apply Z.ltb_lt in H2.
    rewrite WASTE_CATEGORIES_inside by lia. reflexivity.
  - rewrite WASTE_CATEGORIES_outside; [reflexivity |].
    apply andb_false_iff in E as [E | E];
      [apply Z.leb_gt in E | apply Z.ltb_ge in E]; lia.
Qed.

(** ** Rounding *)

Section Rounding.

Local Open Scope Q_scope.

Lemma round_half_even_cases (x : Q) :
  round_half_even x = Qfloor x \/ round_half_even x = (Qfloor x + 1)%Z.
Proof.
  unfold round_half_even.
  destruct (x - inject_Z (Qfloor x) ?= 1 # 2); auto.
  destruct (Z.even (Qfloor x)); auto.
Qed.

Lemma round_half_even_lower (x : Q) (a : Z) :
  inject_Z a <= x -> (a <= round_half_even x)%Z.
Proof.
  intros Hx.
  assert (a <= Qfloor x)%Z as Hf.
  { rewrite <- (Qfloor_Z a). now apply Qfloor_resp_le. }
  destruct (round_half_even_cases x) as [-> | ->]; lia.
Qed.

(** An upper bound survives rounding even from half a unit above it,
    when the bound is even: the tie goes to the bound. *)
Lemma round_half_even_upper (x : Q) (b : Z) :
  x <= inject_Z b + (1 # 2) -> Z.even b = true ->
  (round_half_even x <= b)%Z.
Proof.
  intros Hx Hb.
  pose proof (Qfloor_le x) as Hfl.
  assert (Qfloor x <= b)%Z as Hf.
  { apply Z.lt_succ_r. rewrite Zlt_Qlt.
    unfold Z.succ. rewrite inject_Z_plus. change (inject_Z 1) with 1. lra. }
  unfold round_half_even.
  destruct (x - inject_Z (Qfloor x) ?= 1 # 2) eqn:E.
  - destruct (Z.even (Qfloor x)) eqn:Ev; [exact Hf |].
    assert (Qfloor x <> b) by congruence. lia.
  - exact Hf.
  - apply Qgt_alt in E.
    destruct (Z.eq_dec (Qfloor x) b) as [Heq | Hne]; [| lia].
    rewrite Heq in E. lra.
Qed.

(** The rounded value is within half a unit of the argument. *)
Lemma round_half_even_close (x : Q) :
  Qabs (inject_Z (round_half_even x) - x) <= 1 # 2.
Proof.
  pose proof (Qfloor_le x) as Hlo.
  pose proof (Qlt_floor x) as Hhi.
  rewrite inject_Z_plus in Hhi. change (inject_Z 1) with 1 in Hhi.
  apply Qabs_Qle_condition. unfold round_half_even.
  destruct (x - inject_Z (Qfloor x) ?= 1 # 2) eqn:E.
  - apply Qeq_alt in E.
    destruct (Z.even (Qfloor x));
      [| rewrite inject_Z_plus; change (inject_Z 1) with 1]; split; lra.
  - apply Qlt_alt in E. split; lra.
  - apply Qgt_alt in E. rewrite inject_Z_plus. change (inject_Z 1) with 1.
    split; lra.
Qed.

Lemma py_round_1 (x : Q) : py_round x 1 = round_half_even (x * 10) # 10.
Proof. reflexivity. Qed.

(** [round(x, 1)] stays between two integers that enclose [x]; above, a
    twentieth of slack is allowed. *)
Lemma py_round_1_bounds (x : Q) (lo hi : Z) :
  inject_Z lo <= x -> x <= inject_Z hi + (1 # 20) ->
  inject_Z lo <= py_round x 1 <= inject_Z hi.
Proof.
  intros Hlo Hhi. rewrite py_round_1.
  assert (lo * 10 <= round_half_even (x * 10))%Z as H1.
  { apply round_half_even_lower. rewrite inject_Z_mult.
    change (inject_Z 10) with 10. lra. }
  assert (round_half_even (x * 10) <= hi * 10)%Z as H2.
  { apply round_half_even_upper.
    - rewrite inject_Z_mult. change (inject_Z 10) with 10. lra.
    - rewrite Z.even_mul. apply orb_true_r. }
  unfold Qle. simpl. lia.
Qed.

(** [round(x, 1)] is a whole number of tenths, the one nearest to [x]. *)
Lemma py_round_1_tenths (x : Q) :
  exists k : Z, py_round x 1 = k # 10 /\ Qabs ((k # 10) - x) <= 1 # 20.
Proof.
  exists (round_half_even (x * 10)). split; [apply py_round_1 |].
  pose proof (round_half_even_close (x * 10)) as H.
  apply Qabs_Qle_condition in H as [H1 H2]. apply Qabs_Qle_condition.
  set (k := round_half_even (x * 10)) in *.
  assert (k # 10 == inject_Z k * (1 # 10)) as Hk.
  { unfold Qeq, Qmult, inject_Z. simpl. lia. }
  rewrite Hk. split; lra.
Qed.

(** An integer above the argument is above the rounded value. *)
Lemma round_half_even_below (x : Q) (b : Z) :
  x <= inject_Z b -> (round_half_even x <= b)%Z.
Proof.
  intros Hx.
  pose proof (Qfloor_le x) as Hfl.
  assert (Qfloor x <= b)%Z as Hf.
  { rewrite Zle_Qle. lra. }
  unfold round_half_even.
  destruct (x - inject_Z (Qfloor x) ?= 1 # 2) eqn:E.
  - apply Qeq_alt in E.
    destruct (Z.eq_dec (Qfloor x) b) as [Heq | Hne];
      [rewrite Heq in E; lra |].
    destruct (Z.even (Qfloor x)); lia.
  - exact Hf.
  - apply Qgt_alt in E.
    destruct (Z.eq_dec (Qfloor x) b) as [Heq | Hne]; [| lia].
    rewrite Heq in E. lra.
Qed.

(** On a tie the even neighbour is taken. *)
Lemma round_half_even_tie (x : Q) :
  Qabs (inject_Z (round_half_even x) - x) == 1 # 2 ->
  Z.even (round_half_even x) = true.
Proof.
  pose proof (Qfloor_le x) as Hlo.
  pose proof (Qlt_floor x) as Hhi.
  rewrite inject_Z_plus in Hhi. change (inject_Z 1) with 1 in Hhi.
  unfold round_half_even.
  destruct (x - inject_Z (Qfloor x) ?= 1 # 2) eqn:E.
  - intros _. destruct (Z.even (Qfloor x)) eqn:Ev; [exact Ev |].
    rewrite Z.even_add, Ev. reflexivity.
  - apply Qlt_alt in E. intros H.
    rewrite Qabs_neg in H by lra. lra.
  - apply Qgt_alt in E. intros H.
    rewrite inject_Z_plus in H. change (inject_Z 1) with 1 in H.
    rewrite Qabs_pos in H by lra. lra.
Qed.

Lemma round_half_even_mono (x y : Q) :
  x <= y -> (round_half_even x <= round_half_even y)%Z.
Proof.
  intros Hxy.
  assert (Qfloor x <= Qfloor y)%Z as Hf by now apply Qfloor_resp_le.
  destruct (Z.eq_dec (Qfloor x) (Qfloor y)) as [Heq | Hne].
  - unfold round_half_even. rewrite <- Heq.
    destruct (Qcompare_spec (x - inject_Z (Qfloor x)) (1 # 2));
      destruct (Qcompare_spec (y - inject_Z (Qfloor x)) (1 # 2));
      try lra; destruct (Z.even (Qfloor x)); lia.
  - assert (round_half_even x <= Qfloor x + 1)%Z
      by (destruct (round_half_even_cases x) as [-> | ->]; lia).
    assert (Qfloor y <= round_half_even y)%Z
      by (destruct (round_half_even_cases y) as [-> | ->]; lia).
    lia.
Qed.

(** Nearness and the rule for ties leave one integer only. *)
Lemma round_half_even_unique (z : Q) (n : Z) :
  Qabs (inject_Z n - z) <= 1 # 2 ->
  (Qabs (inject_Z n - z) == 1 # 2 -> Z.even n = true) ->
  n = round_half_even z.
Proof.
  intros Hn Hen.
  pose proof (round_half_even_close z) as Hm.
  pose proof (round_half_even_tie z) as Hem.
  set (m := round_half_even z) in *.
  apply Qabs_Qle_condition in Hn as [Hn1 Hn2].
  apply Qabs_Qle_condition in Hm as [Hm1 Hm2].
  assert (n <= m + 1)%Z as Hup.
  { rewrite Zle_Qle, inject_Z_plus. change (inject_Z 1) with 1. lra. }
  assert (m <= n + 1)%Z as Hdown.
  { rewrite Zle_Qle, inject_Z_plus. change (inject_Z 1) with 1. lra. }
  destruct (Z.eq_dec n m) as [Heq | Hne]; [exact Heq | exfalso].
  assert (n = m + 1 \/ m = n + 1)%Z as [E | E] by lia.
  - assert (inject_Z n == inject_Z m + 1) as Hq
      by (rewrite E, inject_Z_plus; reflexivity).
    assert (Z.even n = true) as En
      by (apply Hen; rewrite Qabs_pos by lra; lra).
    assert (Z.even m = true) as Em
      by (apply Hem; rewrite Qabs_neg by lra; lra).
    rewrite E, Z.even_add, Em in En. discriminate En.
  - assert (inject_Z m == inject_Z n + 1) as Hq
      by (rewrite E, inject_Z_plus; reflexivity).
    assert (Z.even n = true) as En
      by (apply Hen; rewrite Qabs_neg by lra; lra).
    assert (Z.even m = true) as Em
      by (apply Hem; rewrite Qabs_pos by lra; lra).
    rewrite E, Z.even_add, En in Em. discriminate Em.
Qed.

(** The digits asked for are kept: the float 2.625 to no, one and two
    decimals, the last one a tie that goes to the even hundredth. *)
Example py_round_digits :
  py_round (21 # 8) 0 = (3 # 1)%Q /\
  py_round (21 # 8) 1 = (26 # 10)%Q /\
  py_round (21 # 8) 2 = (262 # 100)%Q.
Proof. repeat split; reflexivity. Qed.

(** [round(x, 1)] is the nearest tenth, the even one on a tie. *)
Lemma py_round_1_nearest (x : Q) : nearest_tenth x (py_round x 1).
Proof.
  exists (round_half_even (x * 10)). split; [apply py_round_1 |].
  rewrite py_round_1.
  set (k := round_half_even (x * 10)).
  assert (k # 10 == inject_Z k * (1 # 10)) as Hk.
  { unfold Qeq, Qmult, inject_Z. simpl. lia. }
  assert (Qabs ((k # 10) - x) == Qabs (inject_Z k - x * 10) * (1 # 10)) as Hs.
  { rewrite Hk.
    assert (inject_Z k * (1 # 10) - x == (inject_Z k - x * 10) * (1 # 10))
      as -> by ring.
    rewrite Qabs_Qmult. reflexivity. }
  split.
  - rewrite Hs. pose proof (round_half_even_close (x * 10)) as H.
    fold k in H. lra.
  - intros Htie. apply round_half_even_tie. fold k.
    rewrite Hs in Htie. lra.
Qed.

(** ... and it is the only number with that property. *)
Lemma nearest_tenth_unique (x c : Q) :
  nearest_tenth x c -> c = py_round x 1.
Proof.
  intros (m & -> & Hclose & Htie). rewrite py_round_1. f_equal.
  assert (m # 10 == inject_Z m * (1 # 10)) as Hk.
  { unfold Qeq, Qmult, inject_Z. simpl. lia. }
  assert (Qabs ((m # 10) - x) == Qabs (inject_Z m - x * 10) * (1 # 10)) as Hs.
  { rewrite Hk.
    assert (inject_Z m * (1 # 10) - x == (inject_Z m - x * 10) * (1 # 10))
      as -> by ring.
    rewrite Qabs_Qmult. reflexivity. }
  rewrite Hs in Hclose, Htie.
  apply round_half_even_unique; [lra |].
  intros H. apply Htie. lra.
Qed.

End Rounding.

(** ** Floating point *)

Section Floats.
Local Open Scope Q_scope.

Lemma pow2_pos (e : Z) : 0 < 2 ^ e.
Proof. apply Qpower_0_lt. reflexivity. Qed.

Lemma pow2_split (a b : Z) :
  (0 <= a)%Z -> (0 <= b)%Z ->
  2 ^ (a - b) == inject_Z (2 ^ a) / inject_Z (2 ^ b).
Proof.
  intros Ha Hb. rewrite Qpower_minus by discriminate.
  now rewrite !Zpower_Qpower.
Qed.

Lemma Zfrac_le (p q r s : Z) :
  (0 < q)%Z -> (0 < s)%Z -> (p * s <= r * q)%Z ->
  inject_Z p / inject_Z q <= inject_Z r / inject_Z s.
Proof.
  intros Hq Hs H.
  destruct q as [| q | q]; try lia. destruct s as [| s | s]; try lia.
  unfold Qle, Qdiv, Qmult, Qinv, inject_Z. simpl. lia.
Qed.

Lemma Zfrac_lt (p q r s : Z) :
  (0 < q)%Z -> (0 < s)%Z -> (p * s < r * q)%Z ->
  inject_Z p / inject_Z q < inject_Z r / inject_Z s.
Proof.
  intros Hq Hs H.
  destruct q as [| q | q]; try lia. destruct s as [| s | s]; try lia.
  unfold Qlt, Qdiv, Qmult, Qinv, inject_Z. simpl. lia.
Qed.

Lemma magnitude_spec (x : Q) :
  ~ x == 0 -> 2 ^ (magnitude x - 1) <= Qabs x < 2 ^ magnitude x.
Proof.
  intros Hx.
  assert (Qabs x == inject_Z (Z.abs (Qnum x)) / inject_Z (Zpos (Qden x)))
    as Habs by (destruct x; apply Qmake_Qdiv).
  assert (0 < Z.abs (Qnum x))%Z as Ha.
  { destruct x as [n d]. unfold Qeq in Hx. simpl in *. lia. }
  unfold magnitude.
  set (a := Z.abs (Qnum x)) in *. set (b := Zpos (Qden x)) in *.
  assert (0 < b)%Z as Hb by (unfold b; lia).
  pose proof (Z.log2_nonneg a) as Hla0. pose proof (Z.log2_nonneg b) as Hlb0.
  destruct (Z.log2_spec a Ha) as [Ha1 Ha2].
  destruct (Z.log2_spec b Hb) as [Hb1 Hb2].
  set (la := Z.log2 a) in *. set (lb := Z.log2 b) in *.
  assert (0 < 2 ^ la)%Z as Hpa by (apply Z.pow_pos_nonneg; lia).
  assert (0 < 2 ^ lb)%Z as Hpb by (apply Z.pow_pos_nonneg; lia).
  rewrite Z.pow_succ_r in Ha2, Hb2 by lia.
  rewrite Habs.
  destruct (Z.leb_spec (b * 2 ^ la) (a * 2 ^ lb)) as [Ht | Ht].
  - replace (la - lb + 1 - 1)%Z with (la - lb)%Z by lia.
    replace (la - lb + 1)%Z with (Z.succ la - lb)%Z by lia.
    rewrite !pow2_split by lia. rewrite Z.pow_succ_r by lia. split.
    + apply Zfrac_le; lia.
    + apply Zfrac_lt; nia.
  - replace (la - lb - 1)%Z with (la - Z.succ lb)%Z by lia.
    rewrite !pow2_split by lia. rewrite Z.pow_succ_r by lia. split.
    + apply Zfrac_le; nia.
    + apply Zfrac_lt; lia.
Qed.

(** The magnitude is the only integer with that property. *)
Lemma magnitude_unique (x : Q) (g : Z) :
  2 ^ (g - 1) <= Qabs x < 2 ^ g -> magnitude x = g.
Proof.
  intros [Hlo Hhi].
  assert (~ x == 0) as Hx.
  { intros H. rewrite H in Hlo. pose proof (pow2_pos (g - 1)).
    change (Qabs 0) with 0 in Hlo. lra. }
  destruct (magnitude_spec x Hx) as [Mlo Mhi].
  assert (2 ^ (g - 1) < 2 ^ magnitude x) as H1 by lra.
  assert (2 ^ (magnitude x - 1) < 2 ^ g) as H2 by lra.
  apply Qpower_lt_compat_l_inv in H1; [| reflexivity].
  apply Qpower_lt_compat_l_inv in H2; [| reflexivity].
  lia.
Qed.

Lemma magnitude_mono (x y : Q) :
  0 < x -> x <= y -> (magnitude x <= magnitude y)%Z.
Proof.
  intros Hx Hxy.
  destruct (magnitude_spec x) as [Xlo _]; [lra |].
  destruct (magnitude_spec y) as [_ Yhi]; [lra |].
  rewrite Qabs_pos in Xlo, Yhi by lra.
  assert (2 ^ (magnitude x - 1) < 2 ^ magnitude y) as H by lra.
  apply Qpower_lt_compat_l_inv in H; [| reflexivity]. lia.
Qed.

Lemma astype_zero (d : dtype) (x : Q) : x == 0 -> astype d x = 0.
Proof. intros H. unfold astype. apply Qeq_bool_iff in H. now rewrite H. Qed.

Lemma astype_nonzero (d : dtype) (x : Q) :
  ~ x == 0 ->
  astype d x == inject_Z (round_half_even (x / 2 ^ quantum d x)) * 2 ^ quantum d x.
Proof.
  intros H. unfold astype.
  destruct (Qeq_bool x 0) eqn:E; [apply Qeq_bool_iff in E; contradiction |].
  apply Qred_correct.
Qed.

(** [astype] rounds to the nearest number of the format, ties to the even
    mantissa. *)
Lemma astype_nearest (d : dtype) (y : Q) : nearest_float d y (astype d y).
Proof.
  destruct (Qeq_dec y 0) as [H0 | H0].
  - left. split; [exact H0 |]. now rewrite (astype_zero d y H0).
  - right. exists (magnitude y), (round_half_even (y / 2 ^ quantum d y)).
    split; [now apply magnitude_spec |]. cbv zeta. fold (quantum d y).
    split; [now apply astype_nonzero |].
    split; [apply round_half_even_close | apply round_half_even_tie].
Qed.

(** ... and the only one. *)
Lemma nearest_float_unique (d : dtype) (y x : Q) :
  nearest_float d y x -> x == astype d y.
Proof.
  intros [[Hy Hx] | (g & n & Hg & Hrest)].
  - now rewrite (astype_zero d y Hy).
  - cbv zeta in Hrest. destruct Hrest as (Hx & Hclose & Htie).
    assert (~ y == 0) as Hy0.
    { intros H. destruct Hg as [Hlo _]. rewrite H in Hlo.
      pose proof (pow2_pos (g - 1)). change (Qabs 0) with 0 in Hlo. lra. }
    rewrite <- (magnitude_unique y g Hg) in Hx, Hclose, Htie.
    fold (quantum d y) in Hx, Hclose, Htie.
    rewrite (astype_nonzero d y Hy0), Hx.
    now rewrite (round_half_even_unique _ n Hclose Htie).
Qed.

Lemma pow2_nat (k : Z) : (0 <= k)%Z -> 2 ^ k == inject_Z (2 ^ k).
Proof. intros H. now rewrite Zpower_Qpower. Qed.

(** A multiple of a power of two that is no finer than the quantum of [x]
    bounds the rounded [x] as it bounds [x]. *)
Lemma astype_below (d : dtype) (x : Q) (n f : Z) :
  ~ x == 0 -> (quantum d x <= f)%Z ->
  x <= inject_Z n * 2 ^ f -> astype d x <= inject_Z n * 2 ^ f.
Proof.
  intros H0 Hf Hx. rewrite (astype_nonzero d x H0).
  set (e := quantum d x) in *.
  pose proof (pow2_pos e) as He.
  assert (2 ^ f == inject_Z (2 ^ (f - e)) * 2 ^ e) as Hsplit.
  { rewrite <- pow2_nat by lia. rewrite <- Qpower_plus by discriminate.
    now replace (f - e + e)%Z with f by lia. }
  rewrite Hsplit, Qmult_assoc, <- inject_Z_mult.
  apply Qmult_le_compat_r; [| lra].
  rewrite <- Zle_Qle. apply round_half_even_below.
  apply Qle_shift_div_r; [exact He |].
  rewrite inject_Z_mult, <- Qmult_assoc, <- Hsplit. exact Hx.
Qed.

Lemma astype_above (d : dtype) (x : Q) (n f : Z) :
  ~ x == 0 -> (quantum d x <= f)%Z ->
  inject_Z n * 2 ^ f <= x -> inject_Z n * 2 ^ f <= astype d x.
Proof.
  intros H0 Hf Hx. rewrite (astype_nonzero d x H0).
  set (e := quantum d x) in *.
  pose proof (pow2_pos e) as He.
  assert (2 ^ f == inject_Z (2 ^ (f - e)) * 2 ^ e) as Hsplit.
  { rewrite <- pow2_nat by lia. rewrite <- Qpower_plus by discriminate.
    now replace (f - e + e)%Z with f by lia. }
  rewrite Hsplit, Qmult_assoc, <- inject_Z_mult.
  apply Qmult_le_compat_r; [| lra].
  rewrite <- Zle_Qle. apply round_half_even_lower.
  apply Qle_shift_div_l; [exact He |].
  rewrite inject_Z_mult, <- Qmult_assoc, <- Hsplit. exact Hx.
Qed.

Lemma astype_nonneg (d : dtype) (x : Q) : 0 <= x -> 0 <= astype d x.
Proof.
  intros Hx. destruct (Qeq_dec x 0) as [H0 | H0].
  - rewrite (astype_zero d x H0). lra.
  - pose proof (astype_above d x 0 (quantum d x) H0 (Z.le_refl _)) as H.
    change (inject_Z 0) with 0 in H. rewrite Qmult_0_l in H. now apply H.
Qed.

(** A number on the grid of its own quantum is a number of the format:
    rounding leaves it as it is. *)
Lemma astype_exact (d : dtype) (x : Q) (n f : Z) :
  (quantum d x <= f)%Z -> x == inject_Z n * 2 ^ f -> astype d x == x.
Proof.
  intros Hf Hx. destruct (Qeq_dec x 0) as [H0 | H0].
  - rewrite (astype_zero d x H0). now symmetry.
  - apply Qle_antisym.
    + rewrite Hx at 2. apply astype_below; [exact H0 | exact Hf |].
      rewrite Hx. apply Qle_refl.
    + rewrite Hx at 1. apply astype_above; [exact H0 | exact Hf |].
      rewrite Hx. apply Qle_refl.
Qed.

(** Known values: 0.1 in single and in double precision, and the smallest
    positive numbers of the two formats, below half of which everything
    is rounded to 0. *)
Example astype_known_values :
  astype float32 (1 # 10) = (13421773 # 134217728)%Q /\
  astype float64 (1 # 10) = (3602879701896397 # 36028797018963968)%Q /\
  astype float32 (3 # 2 ^ 151) = (1 # 2 ^ 149)%Q /\
  astype float32 (1 # 2 ^ 150) = 0%Q /\
  astype float64 (3 # 2 ^ 1076) = (1 # 2 ^ 1074)%Q /\
  astype float64 (1 # 2 ^ 1075) = 0%Q.
Proof. repeat split; vm_compute; reflexivity. Qed.

Lemma mantissa_bits_pos (d : dtype) : (1 <= mantissa_bits d)%Z.
Proof. destruct d; simpl; lia. Qed.

(** Rounding keeps the order of non-negative numbers. *)
Lemma astype_mono (d : dtype) (x y : Q) :
  0 <= x -> x <= y -> astype d x <= astype d y.
Proof.
  intros Hx Hxy. destruct (Qeq_dec x 0) as [H0 | H0].
  { rewrite (astype_zero d x H0). apply astype_nonneg. lra. }
  assert (0 < x) as Hx' by lra.
  assert (~ y == 0) as Hy0 by lra.
  pose proof (magnitude_mono x y Hx' Hxy) as Hm.
  pose proof (mantissa_bits_pos d) as Hp.
  destruct (Z.eq_dec (quantum d x) (quantum d y)) as [Heq | Hne].
  - rewrite (astype_nonzero d x H0), (astype_nonzero d y Hy0), Heq.
    pose proof (pow2_pos (quantum d y)) as He.
    apply Qmult_le_compat_r; [| lra].
    rewrite <- Zle_Qle. apply round_half_even_mono.
    apply Qmult_le_compat_r; [exact Hxy |].
    apply Qlt_le_weak, Qinv_lt_0_compat, He.
  - destruct (magnitude_spec x H0) as [_ Xhi].
    destruct (magnitude_spec y Hy0) as [Ylo _].
    rewrite Qabs_pos in Xhi, Ylo by lra.
    assert (magnitude x < magnitude y)%Z as Hlt.
    { destruct (Z.eq_dec (magnitude x) (magnitude y)) as [E | E]; [| lia].
      exfalso. apply Hne. unfold quantum. now rewrite E. }
    assert (2 ^ magnitude x <= 2 ^ (magnitude y - 1)) as Hpow
      by (apply Qpower_le_compat_l; [lia | discriminate]).
    apply Qle_trans with (inject_Z 1 * 2 ^ (magnitude y - 1)).
    + apply astype_below; [exact H0 | unfold quantum in *; lia |].
      change (inject_Z 1) with 1. lra.
    + apply astype_above; [exact Hy0 | unfold quantum in *; lia |].
      change (inject_Z 1) with 1. lra.
Qed.

End Floats.

(** [np.random.uniform(85, 99)] on a unit double: the product with the
    range 14 is rounded, then the sum with 85; the result stays between
    the bounds, the upper one included. *)
Lemma random_uniform_85_99 (u : Q) :
  (0 <= u < 1)%Q ->
  random_uniform 85 99 u
    = astype float64 (85 + astype float64 (14 * u))%Q /\
  (0 <= astype float64 (14 * u) <= 14)%Q /\
  (85 <= random_uniform 85 99 u <= 99)%Q.
Proof.
  intros [H0 H1].
  assert (random_uniform 85 99 u
            = astype float64 (85 + astype float64 (14 * u))%Q) as Heq
    by reflexivity.
  assert (0 <= astype float64 (14 * u) <= 14)%Q as Ht.
  { split; [apply astype_nonneg; lra |].
    apply Qle_trans with (astype float64 14);
      [apply astype_mono; lra | vm_compute; discriminate]. }
  split; [exact Heq |]. split; [exact Ht |]. rewrite Heq.
  split.
  - apply Qle_trans with (astype float64 85);
      [vm_compute; discriminate | apply astype_mono; lra].
  - apply Qle_trans with (astype float64 99);
      [apply astype_mono; lra | vm_compute; discriminate].
Qed.

(** The product of a score of [[0, 1 + 1/2000]] with 100, in either
    dtype, stays within a twentieth above 100. *)
Lemma np_multiply_100_bounds (d : dtype) (p : Q) :
  (0 <= p <= 1 + (1 # 2000))%Q ->
  (0 <= np_multiply d p 100 <= 100 + (1 # 20))%Q.
Proof.
  intros [H0 H1]. unfold np_multiply.
  pose proof (astype_nonneg d p H0) as Ha0.
  pose proof (astype_mono d p (1 + (1 # 2000)) H0 H1) as Ha1.
  assert (0 <= astype d 100)%Q as Hh by (apply astype_nonneg; lra).
  split.
  - apply astype_nonneg. now apply Qmult_le_0_compat.
  - apply Qle_trans
      with (astype d (astype d (1 + (1 # 2000)) * astype d 100)).
    + apply astype_mono; [now apply Qmult_le_0_compat |].
      now apply Qmult_le_compat_r.
    + destruct d; vm_compute; discriminate.
Qed.

(** ** [np.argmax] *)

Section Argmax.

Local Open Scope Q_scope.

Lemma first_maximum_snoc_keep (pre : list Q) (k : nat) (p x : Q) :
  first_maximum pre k p -> x <= p -> first_maximum (pre ++ [x]) k p.
Proof.
  intros (Hk & Hmax & Hfirst) Hx. repeat split.
  - now apply lookup_app_l_Some.
  - intros j q Hj. apply lookup_app_Some in Hj as [Hj | [_ Hj]].
    + eauto.
    + apply list_lookup_singleton_Some in Hj as [_ <-]. exact Hx.
  - intros j q Hlt Hj. apply lookup_app_Some in Hj as [Hj | [Hge _]].
    + eauto.
    + apply lookup_lt_Some in Hk. lia.
Qed.

Lemma first_maximum_snoc_new (pre : list Q) (k : nat) (p x : Q) :
  first_maximum pre k p -> p < x ->
  first_maximum (pre ++ [x]) (length pre) x.
Proof.
  intros (Hk & Hmax & Hfirst) Hx. repeat split.
  - rewrite lookup_app_r by lia. now rewrite Nat.sub_diag.
  - intros j q Hj. apply lookup_app_Some in Hj as [Hj | [_ Hj]].
    + apply Qle_trans with p; [eauto | now apply Qlt_le_weak].
    + apply list_lookup_singleton_Some in Hj as [_ <-]. apply Qle_refl.
  - intros j q Hlt Hj. apply lookup_app_Some in Hj as [Hj | [Hge _]].
    + apply Qle_lt_trans with p; eauto.
    + lia.
Qed.

(** The scan keeps the invariant: the running best is the first maximum
    of the part already seen. *)
Lemma argmax_from_spec (l pre : list Q) (best_i : nat) (best : Q) :
  first_maximum pre best_i best ->
  exists p : Q,
    first_maximum (pre ++ l) (argmax_from best_i best (length pre) l) p.
Proof.
  revert pre best_i best.
  induction l as [| x rest IH]; intros pre best_i best Hinv.
  - exists best. now rewrite app_nil_r.
  - simpl. rewrite cons_middle, app_assoc.
    assert (S (length pre) = length (pre ++ [x])) as ->.
    { rewrite length_app. simpl. lia. }
    destruct (best ?= x) eqn:E.
    + apply IH, first_maximum_snoc_keep; [exact Hinv |].
      apply Qeq_alt in E. rewrite E. apply Qle_refl.
    + apply Qlt_alt in E.
      apply IH. eapply first_maximum_snoc_new; eauto.
    + apply IH, first_maximum_snoc_keep; [exact Hinv |].
      apply Qgt_alt in E. now apply Qlt_le_weak.
Qed.

(** [np.argmax] of a non-empty vector returns the first index of its
    largest element. *)
Lemma np_argmax_first_maximum (l : list Q) :
  l <> [] ->
  exists (k : nat) (p : Q),
    np_argmax l = Ok (Z.of_nat k) /\ first_maximum l k p.
Proof.
  destruct l as [| x rest]; [congruence | intros _].
  destruct (argmax_from_spec rest [x] 0 x) as [p Hp].
  - repeat split.
    + intros j q Hj. apply list_lookup_singleton_Some in Hj as [_ <-].
      apply Qle_refl.
    + intros j q Hlt. lia.
  - exists (argmax_from 0 x 1 rest), p. split; [reflexivity | exact Hp].
Qed.

End Argmax.

(** ** Sequences *)

Lemma seq_getitem_lookup {A : Type} (l : list A) (k : nat) (a : A) :
  l !! k = Some a -> seq_getitem l (Z.of_nat k) = Ok a.
Proof.
  intros Hk. pose proof (lookup_lt_Some _ _ _ Hk) as Hlt.
  unfold seq_getitem.
  destruct (Z.of_nat k <? 0) eqn:E; [apply Z.ltb_lt in E; lia |].
  replace ((0 <=? Z.of_nat k) && (Z.of_nat k <? Z.of_nat (length l)))
    with true.
  - now rewrite Nat2Z.id, Hk.
  - symmetry. apply andb_true_iff. split; [apply Z.leb_le | apply Z.ltb_lt]; lia.
Qed.

Lemma seq_getitem_head {A : Type} (a : A) (l : list A) :
  seq_getitem (a :: l) 0 = Ok a.
Proof. exact (seq_getitem_lookup (a :: l) 0 a eq_refl). Qed.

Lemma seq_getitem_elem {A : Type} (l : list A) (i : Z) (a : A) :
  seq_getitem l i = Ok a -> a ∈ l.
Proof.
  unfold seq_getitem.
  destruct ((0 <=? _) && (_ <? _)); [| discriminate].
  destruct (l !! _) as [b |] eqn:E; [| discriminate].
  intros [= <-]. eapply list_elem_of_lookup_2; eauto.
Qed.

(** A term of a sum of non-negative numbers is at most the sum. *)
Lemma Qsum_bounds_elem (l : list Q) (p : Q) :
  Forall (fun q => (0 <= q)%Q) l -> p ∈ l -> (0 <= p <= Qsum l)%Q.
Proof.
  intros Hnn Hin.
  assert (0 <= Qsum l)%Q as Hsum.
  { clear Hin. induction Hnn as [| q l Hq _ IH]; simpl; lra. }
  revert Hsum. induction Hnn as [| q l Hq Hnn IH]; intros Hsum.
  - inversion Hin.
  - assert (0 <= Qsum l)%Q as Hl.
    { clear -Hnn. induction Hnn as [| q' l' Hq' _ IH']; simpl; lra. }
    apply elem_of_cons in Hin as [-> | Hin]; simpl.
    + lra.
    + specialize (IH Hin Hl). lra.
Qed.

(** ** One call of [predict] *)

(** Without a usable model the call draws twice and decorates the draw. *)
Lemma predict_fallback (env : environment) (path : string) (w : world) :
  Fallback w -> predict env path w = demo_prediction env w.
Proof.
  intros Hf. unfold demo_prediction, predict, bind, get_self.
  destruct (model_loaded (self w)) eqn:E1; destruct (model (self w)) eqn:E2;
    try (destruct Hf; congruence);
    unfold np_random_randint, np_random_uniform, bind,
      np_random_draw, ret, lift;
    rewrite len_WASTE_CATEGORIES; cbn [Z.leb Z.compare rng_pos self stdout];
    unfold after_draws; cbn [Nat.add];
    destruct (dict_getitem _ _); reflexivity.
Qed.

(** With a model the call is the chain preprocess, infer, argmax, look up;
    the first step that raises ends it. *)
Lemma predict_loaded (env : environment) (path : string) (w : world)
    (m : keras_model) :
  Loaded w m ->
  predict env path w =
    match preprocess_image env path w with
    | (Raise e, w1) => (Raise e, w1)
    | (Ok t, w1) =>
        match model_predict m t with
        | Raise e => (Raise e, w1)
        | Ok predictions =>
            match seq_getitem predictions 0 with
            | Raise e => (Raise e, w1)
            | Ok row =>
                match np_argmax row with
                | Raise e => (Raise e, w1)
                | Ok category_id =>
                    match seq_getitem row category_id with
                    | Raise e => (Raise e, w1)
                    | Ok p =>
                        match dict_getitem WASTE_CATEGORIES category_id with
                        | Raise e => (Raise e, w1)
                        | Ok info =>
                            (Ok (build_result info category_id
                                   (np_multiply (product_dtype env) p 100)),
                             w1)
                        end
                    end
                end
            end
        end
    end.
Proof.
  intros [H1 H2]. unfold predict, bind, get_self. rewrite H1, H2.
  destruct (preprocess_image env path w) as [[t | e] w1]; [| reflexivity].
  unfold lift, ret.
  destruct (model_predict m t) as [predictions | e]; [| reflexivity].
  destruct (seq_getitem predictions 0) as [row | e]; [| reflexivity].
  destruct (np_argmax row) as [k | e]; [| reflexivity].
  destruct (seq_getitem row k) as [p | e]; [| reflexivity].
  destruct (dict_getitem WASTE_CATEGORIES k); reflexivity.
Qed.

(** Every world is in one of the two states. *)
Lemma Loaded_or_Fallback (w : world) :
  (exists m, Loaded w m) \/ Fallback w.
Proof.
  unfold Loaded, Fallback.
  destruct (model_loaded (self w)); [| now right; left].
  destruct (model (self w)) as [m |]; [left; eauto | now right; right].
Qed.

(** Preprocessing reads the world and leaves it as it is. *)
Lemma preprocess_image_world (env : environment) (path : string) (w : world) :
  snd (preprocess_image env path w) = w.
Proof.
  unfold preprocess_image, bind, get_self, Image_open, lift, raise, ret.
  destruct (files env !! path) as [bytes |]; [| reflexivity].
  destruct (pil_decode env bytes); reflexivity.
Qed.

(** A key the table answers for is one of 0..5. *)
Lemma dict_getitem_Ok_range (i : Z) (info : CategoryInfo) :
  dict_getitem WASTE_CATEGORIES i = Ok info ->
  WASTE_CATEGORIES !! i = Some info /\ 0 <= i < len WASTE_CATEGORIES.
Proof.
  unfold dict_getitem. rewrite len_WASTE_CATEGORIES.
  destruct (WASTE_CATEGORIES !! i) as [c |] eqn:E; [| discriminate].
  intros [= <-]. split; [reflexivity |].
  destruct (Z_lt_dec i 0) as [Hl | Hl];
    [rewrite WASTE_CATEGORIES_outside in E by lia; discriminate |].
  destruct (Z_le_dec 6 i) as [Hu | Hu];
    [rewrite WASTE_CATEGORIES_outside in E by lia; discriminate |].
  lia.
Qed.

(** ** Demo mode *)

Lemma samples_ok (n : nat) :
  (forall low high : Z,
      low < high ->
      low <= randint_value (Sample.samples n) low high < high) /\
  (0 <= double_value (Sample.samples n) < 1)%Q.
Proof.
  assert (0 <= Z.of_nat (n mod 7) # 7 < 1)%Q as Hu.
  { unfold Qle, Qlt. simpl. pose proof (Nat.mod_upper_bound n 7). lia. }
  split; [| exact Hu].
  intros low high Hlh. cbn [randint_value Sample.samples].
  set (u := Z.of_nat (n mod 7) # 7) in *.
  assert (0 < inject_Z (high - low))%Q as Hpos.
  { change 0%Q with (inject_Z 0). rewrite <- Zlt_Qlt. lia. }
  assert (0 <= Qfloor (u * inject_Z (high - low)) < high - low) as Hk.
  { split.
    - rewrite <- (Qfloor_Z 0) at 1. apply Qfloor_resp_le.
      change (inject_Z 0) with 0%Q. apply Qmult_le_0_compat; lra.
    - rewrite Zlt_Qlt. eapply Qle_lt_trans; [apply Qfloor_le |].
      rewrite <- (Qmult_1_l (inject_Z (high - low))) at 2.
      apply Qmult_lt_compat_r; [exact Hpos | apply Hu]. }
  lia.
Qed.

(** A generator whose every integer draw is [k], taken into the interval
    asked for. *)
Lemma constant_generator_ok (k : Z) (env : environment) :
  generator_ok
    (with_samples
       (fun _ : nat =>
          {| randint_value := fun low high => low + k mod (high - low);
             double_value := 0 |})
       env).
Proof.
  intros n. cbn [with_samples random_sample randint_value double_value].
  split; [| split; [apply Qle_refl | reflexivity]].
  intros low high Hlh.
  pose proof (Z.mod_pos_bound k (high - low)). lia.
Qed.

(** [randint] checks its bounds before it touches the generator. *)
Example randint_empty_interval :
  np_random_randint (Sample.env true) 5 5 Sample.demo
    = (Raise (ValueError "low >= high"), Sample.demo) /\
  np_random_randint (Sample.env true) 6 0 Sample.demo
    = (Raise (ValueError "low >= high"), Sample.demo) /\
  np_random_randint (Sample.env true) 5 6 Sample.demo
    = (Ok 5, after_draws 1 Sample.demo).
Proof. repeat split; reflexivity. Qed.

(** C7.  In the Fallback state, whatever the generator yields within
    NumPy's contract, [predict] succeeds after two calls on it.  The
    category is the integer the generator returns for [randint(0, N)], a
    key of the table, and every key is returned by some generator.  The
    confidence is [np.random.uniform(85, 99)] on the generator's unit
    double [u], rounded to one decimal: [14 * u] rounded to a double [t],
    then [85 + t] rounded to a double [x] of [[85, 99]], then the nearest
    tenth of [x], which lies in [[85, 99]] as well. *)
Theorem fallback_prediction_draws (env : environment) (path : string)
    (w : world) :
  Fallback w -> generator_ok env ->
  let d0 := random_sample env (rng_pos w) in
  let u := double_value (random_sample env (S (rng_pos w))) in
  exists (r : PredictionResult) (t x : Q),
    predict env path w = (Ok r, after_draws 2 w) /\
    category_id r = randint_value d0 0 (len WASTE_CATEGORIES) /\
    0 <= category_id r <= len WASTE_CATEGORIES - 1 /\
    nearest_float float64 (14 * u) t /\
    nearest_float float64 (85 + t) x /\
    (85 <= x <= 99)%Q /\
    nearest_tenth x (confidence r) /\
    (85 <= confidence r <= 99)%Q /\
    (forall k : Z, 0 <= k <= len WASTE_CATEGORIES - 1 ->
       exists (f : nat -> draw) (r' : PredictionResult),
         generator_ok (with_samples f env) /\
         predict (with_samples f env) path w = (Ok r', after_draws 2 w) /\
         category_id r' = k).
Proof.
  intros Hf Hg d0 u. subst d0 u.
  assert (forall e : environment, generator_ok e ->
            0 <= randint_value (random_sample e (rng_pos w)) 0 6 < 6)
    as Hrange.
  { intros e He. destruct (He (rng_pos w)) as [Hint _]. apply Hint. lia. }
  pose proof (predict_fallback env path w Hf) as Hp.
  unfold demo_prediction in Hp.
  pose proof (Hrange env Hg) as Hk.
  unfold dict_getitem in Hp. rewrite WASTE_CATEGORIES_inside in Hp by lia.
  destruct (Hg (S (rng_pos w))) as [_ Hu].
  destruct (random_uniform_85_99 _ Hu) as (Heq & Ht & Hx).
  set (u := double_value (random_sample env (S (rng_pos w)))) in *.
  eexists. exists (astype float64 (14 * u)), (random_uniform 85 99 u).
  split; [exact Hp |].
  rewrite len_WASTE_CATEGORIES. cbn [category_id confidence build_result].
  split; [reflexivity |]. split; [lia |].
  split; [apply astype_nearest |].
  split; [rewrite Heq; apply astype_nearest |].
  split; [exact Hx |].
  split; [apply py_round_1_nearest |].
  split.
  - apply (py_round_1_bounds _ 85 99);
      [change (inject_Z 85) with 85%Q | change (inject_Z 99) with 99%Q]; lra.
  - intros k Hk6.
    set (f := fun _ : nat =>
                {| randint_value := fun low high => low + k mod (high - low);
                   double_value := 0 |}).
    pose proof (constant_generator_ok k env) as Hgf. fold f in Hgf.
    pose proof (predict_fallback (with_samples f env) path w Hf) as Hp'.
    unfold demo_prediction in Hp'. pose proof (Hrange _ Hgf) as Hk'.
    unfold dict_getitem in Hp'.
    rewrite WASTE_CATEGORIES_inside in Hp' by lia.
    exists f. eexists. split; [exact Hgf |]. split; [exact Hp' |].
    cbn [category_id build_result with_samples random_sample randint_value f].
    rewrite Z.mod_small by lia. lia.
Qed.

(** The theorem above on the sample environment: a demo-mode predictor
    classifying "red.png". *)
Lemma fallback_prediction_draws_witness :
  exists r : PredictionResult,
    predict (Sample.env true) "red.png" Sample.demo
      = (Ok r, after_draws 2 Sample.demo) /\
    (85 <= confidence r <= 99)%Q.
Proof.
  destruct (fallback_prediction_draws (Sample.env true) "red.png" Sample.demo)
    as (r & t & x & Hr & _ & _ & _ & _ & _ & _ & Hc & _).
  - left. reflexivity.
  - exact samples_ok.
  - exists r. split; [exact Hr | exact Hc].
Defined.

(** ** Prediction with a model *)

(** C2.  In the Loaded state, when the model answers the preprocessed image
    with a vector [probs] of probabilities (non-empty, no longer than the
    table, every entry in [[0, 1]]), the result's [category_id] is the
    first index [k] at which [probs] is largest (on ties the lowest index
    wins).  Its [confidence] is [probs[k] * 100] as NumPy computes it,
    rounded to one decimal: the score taken in the dtype of the product
    ([s], the score itself when it is a number of that dtype), the product
    [s * 100] rounded to that dtype ([x]), then the nearest tenth of [x],
    the even one on a tie. *)
Theorem loaded_prediction_argmax (env : environment) (path : string)
    (w w1 : world) (m : keras_model) (t : ndarray)
    (probs : list Q) (rest : list (list Q)) :
  Loaded w m ->
  preprocess_image env path w = (Ok t, w1) ->
  model_predict m t = Ok (probs :: rest) ->
  0 < Z.of_nat (length probs) <= len WASTE_CATEGORIES ->
  Forall (fun q => (0 <= q <= 1)%Q) probs ->
  exists (k : nat) (p : Q) (r : PredictionResult) (s x : Q),
    first_maximum probs k p /\
    predict env path w = (Ok r, w1) /\
    category_id r = Z.of_nat k /\
    nearest_float (product_dtype env) p s /\
    nearest_float (product_dtype env) (s * 100) x /\
    nearest_tenth x (confidence r).
Proof.
  intros HL Hpre Hm Hlen _. rewrite len_WASTE_CATEGORIES in Hlen.
  destruct (np_argmax_first_maximum probs) as (k & p & Hk & Hmax).
  { intros ->. simpl in Hlen. lia. }
  pose proof Hmax as (Hlook & _).
  pose proof (lookup_lt_Some _ _ _ Hlook) as Hlt.
  exists k, p.
  rewrite (predict_loaded env path w m HL), Hpre, Hm.
  rewrite seq_getitem_head, Hk.
  rewrite (seq_getitem_lookup probs k p Hlook).
  unfold dict_getitem. rewrite WASTE_CATEGORIES_inside by lia.
  eexists. exists (astype (product_dtype env) p),
    (np_multiply (product_dtype env) p 100).
  split; [exact Hmax |]. split; [reflexivity |]. split; [reflexivity |].
  cbn [confidence build_result].
  split; [apply astype_nearest |].
  split; [| apply py_round_1_nearest].
  unfold np_multiply.
  assert (astype (product_dtype env) 100 = 100%Q) as ->
    by (destruct (product_dtype env); reflexivity).
  apply astype_nearest.
Qed.

Lemma tied_scores_probabilities :
  Forall (fun q => (0 <= q <= 1)%Q) Sample.tied_scores.
Proof. unfold Sample.tied_scores. repeat constructor; discriminate. Qed.

(** The theorem above on the sample model, whose scores tie at indices 2
    and 3: index 2 is reported, with confidence 30.0. *)
Lemma loaded_prediction_argmax_witness :
  exists (k : nat) (p : Q) (r : PredictionResult) (s x : Q),
    first_maximum Sample.tied_scores k p /\
    predict (Sample.env true) "red.png" Sample.loaded = (Ok r, Sample.loaded) /\
    category_id r = Z.of_nat k /\
    nearest_float float32 p s /\
    nearest_float float32 (s * 100) x /\
    nearest_tenth x (confidence r).
Proof.
  apply (loaded_prediction_argmax (Sample.env true) "red.png"
           Sample.loaded Sample.loaded Sample.tied_model
           Sample.red_tensor Sample.tied_scores []).
  - split; reflexivity.
  - reflexivity.
  - reflexivity.
  - vm_compute. split; [reflexivity | discriminate].
  - exact tied_scores_probabilities.
Defined.

(** The float32 nearest to 0.1775 times 100 is 17.75 in float32, which
    [round] takes to the even tenth 17.8; in float64 the product stays
    below 17.75 and is rounded to 17.7. *)
Example product_at_a_tie :
  np_multiply float32 (astype float32 (1775 # 10000)) 100 = (71 # 4)%Q /\
  py_round (np_multiply float32 (astype float32 (1775 # 10000)) 100) 1
    = (178 # 10)%Q /\
  py_round (np_multiply float64 (astype float32 (1775 # 10000)) 100) 1
    = (177 # 10)%Q.
Proof. repeat split; vm_compute; reflexivity. Qed.

(** [np.random.uniform(85, 99)] on a unit double just above 1/56: the
    exact value lies above 85.25, the double sum is 85.25, and [round]
    takes it to the even tenth 85.2. *)
Example uniform_at_a_tie :
  let u := ((2 ^ 52 / 56 + 1) # (2 ^ 52))%Q in
  (85 + (1 # 4) < 85 + 14 * u)%Q /\
  random_uniform 85 99 u = (341 # 4)%Q /\
  py_round (random_uniform 85 99 u) 1 = (852 # 10)%Q.
Proof. repeat split; vm_compute; reflexivity. Qed.

Example tied_scores_pick_index_2 :
  np_argmax Sample.tied_scores = Ok 2.
Proof. reflexivity. Qed.

(** ** Range of the result *)

(** C1.  Whenever [predict] returns a result, in either state, its
    [category_id] is a key of the table (an integer of [[0, N)]) and its
    [confidence] is a whole number of tenths in [[0, 100]].  Assumed: the
    generator keeps NumPy's contract, and a held model answers with [N]
    non-negative scores that sum to 1 up to 1/2000. *)
Theorem prediction_in_range (env : environment) (path : string)
    (w w' : world) (r : PredictionResult) :
  generator_ok env ->
  (forall m : keras_model,
      model (self w) = Some m -> softmax_model (1 # 2000) m) ->
  predict env path w = (Ok r, w') ->
  is_Some (WASTE_CATEGORIES !! category_id r) /\
  0 <= category_id r < len WASTE_CATEGORIES /\
  (0 <= confidence r <= 100)%Q /\
  exists k : Z, confidence r = k # 10.
Proof.
  intros Hg Hsoft Hrun.
  destruct (Loaded_or_Fallback w) as [[m HL] | HF].
  - rewrite (predict_loaded env path w m HL) in Hrun.
    destruct (preprocess_image env path w) as [[t | e] w1]; [| discriminate].
    destruct (model_predict m t) as [out | e] eqn:Hout; [| discriminate].
    destruct (Hsoft m (proj2 HL) t out Hout)
      as (probs & rest & -> & Hlen & Hnn & Hsum).
    rewrite seq_getitem_head in Hrun.
    destruct (np_argmax probs) as [k | e]; [| discriminate].
    destruct (seq_getitem probs k) as [p | e] eqn:Hp; [| discriminate].
    destruct (dict_getitem WASTE_CATEGORIES k) as [info | e] eqn:Hinfo;
      [| discriminate].
    injection Hrun as <- _. cbn [category_id confidence build_result].
    apply dict_getitem_Ok_range in Hinfo as [Hlook Hrange].
    split; [eauto |]. split; [exact Hrange |].
    apply seq_getitem_elem in Hp.
    destruct (Qsum_bounds_elem probs p Hnn Hp) as [Hp0 Hp1].
    apply Qabs_Qle_condition in Hsum as [_ Hsum].
    destruct (np_multiply_100_bounds (product_dtype env) p) as [Hx0 Hx1];
      [split; lra |].
    split; [| eexists; apply py_round_1].
    apply (py_round_1_bounds _ 0 100);
      [change (inject_Z 0) with 0%Q | change (inject_Z 100) with 100%Q]; lra.
  - rewrite (predict_fallback env path w HF) in Hrun.
    unfold demo_prediction in Hrun.
    destruct (dict_getitem WASTE_CATEGORIES _) as [info | e] eqn:Hinfo;
      [| discriminate].
    injection Hrun as <- _. cbn [category_id confidence build_result].
    apply dict_getitem_Ok_range in Hinfo as [Hlook Hrange].
    split; [eauto |]. split; [exact Hrange |].
    destruct (Hg (S (rng_pos w))) as [_ Hu].
    destruct (random_uniform_85_99 _ Hu) as (_ & _ & Hx).
    split; [| eexists; apply py_round_1].
    apply (py_round_1_bounds _ 0 100);
      [change (inject_Z 0) with 0%Q | change (inject_Z 100) with 100%Q]; lra.
Qed.

Lemma tied_model_softmax : softmax_model (1 # 2000) Sample.tied_model.
Proof.
  intros t out [= <-]. exists Sample.tied_scores, [].
  split; [reflexivity |]. split; [reflexivity |]. split.
  - unfold Sample.tied_scores. repeat constructor; discriminate.
  - vm_compute. discriminate.
Qed.

(** The theorem above on the sample environment, with the model held. *)
Lemma prediction_in_range_witness :
  exists r : PredictionResult,
    predict (Sample.env true) "red.png" Sample.loaded = (Ok r, Sample.loaded) /\
    0 <= category_id r < len WASTE_CATEGORIES /\
    (0 <= confidence r <= 100)%Q.
Proof.
  assert (forall m : keras_model,
             model (self Sample.loaded) = Some m ->
             softmax_model (1 # 2000) m) as Hsoft.
  { intros m [= <-]. exact tied_model_softmax. }
  eexists. split; [vm_compute; reflexivity |].
  pose proof (prediction_in_range (Sample.env true) "red.png"
                Sample.loaded Sample.loaded _ samples_ok Hsoft eq_refl)
    as (_ & Hr & Hc & _).
  split; assumption.
Defined.

(** ** Errors of preprocessing *)

(** In demo mode [predict] never opens the image: "notes.txt" is not an
    image and preprocessing it raises, yet [predict] returns a result
    (category 0 and confidence 87.0 for the draws 0 and 1/7). *)
Lemma demo_mode_ignores_undecodable_image :
  preprocess_image (Sample.env true) "notes.txt" Sample.demo
    = (Raise UnidentifiedImageError, Sample.demo) /\
  predict (Sample.env true) "notes.txt" Sample.demo
    = (Ok (build_result Glass 0 87), after_draws 2 Sample.demo).
Proof. split; reflexivity. Qed.

(** C6, for the Loaded state.  An exception raised by preprocessing leaves
    [predict] as it is: the same exception, in the world where it was
    raised (the one before the call), and no result. *)
Theorem loaded_prediction_propagates (env : environment) (path : string)
    (w w1 : world) (m : keras_model) (e : exn) :
  Loaded w m ->
  preprocess_image env path w = (Raise e, w1) ->
  predict env path w = (Raise e, w1) /\ w1 = w.
Proof.
  intros HL Hpre. split.
  - now rewrite (predict_loaded env path w m HL), Hpre.
  - pose proof (preprocess_image_world env path w) as Hw.
    now rewrite Hpre in Hw.
Qed.

Lemma loaded_prediction_propagates_witness :
  predict (Sample.env true) "notes.txt" Sample.loaded
    = (Raise UnidentifiedImageError, Sample.loaded)
  /\ Sample.loaded = Sample.loaded.
Proof.
  apply (loaded_prediction_propagates (Sample.env true) "notes.txt"
           Sample.loaded Sample.loaded Sample.tied_model
           UnidentifiedImageError).
  - split; reflexivity.
  - reflexivity.
Defined.

(** ** The predictor object is only read *)

Lemma predict_self (env : environment) (path : string) (w : world) :
  self (snd (predict env path w)) = self w.
Proof.
  destruct (Loaded_or_Fallback w) as [[m HL] | HF].
  - rewrite (predict_loaded env path w m HL).
    pose proof (preprocess_image_world env path w) as Hw.
    destruct (preprocess_image env path w) as [[t | e] w1];
      simpl in Hw; subst w1; [| reflexivity].
    destruct (model_predict m t) as [out | e]; [| reflexivity].
    destruct (seq_getitem out 0) as [row | e]; [| reflexivity].
    destruct (np_argmax row) as [k | e]; [| reflexivity].
    destruct (seq_getitem row k) as [p | e]; [| reflexivity].
    destruct (dict_getitem WASTE_CATEGORIES k); reflexivity.
  - rewrite (predict_fallback env path w HF). unfold demo_prediction.
    destruct (dict_getitem WASTE_CATEGORIES _); reflexivity.
Qed.

Lemma predict_batch_self (env : environment) (paths : list string) (w : world) :
  self (snd (predict_batch env paths w)) = self w.
Proof.
  revert w. induction paths as [| path rest IH]; intros w; [reflexivity |].
  simpl. unfold bind.
  pose proof (predict_self env path w) as H1.
  destruct (predict env path w) as [[r | e] w1]; simpl in H1; [| exact H1].
  pose proof (IH w1) as H2.
  destruct (predict_batch env rest w1) as [[rs | e] w2]; simpl in H2;
    simpl; congruence.
Qed.

(** C9.  A call of [predict] or of [predict_batch], returning or raising,
    leaves [model], [model_loaded] and [img_size] as they were. *)
Theorem prediction_preserves_predictor (env : environment) (w : world) :
  (forall path : string,
      let w' := snd (predict env path w) in
      model (self w') = model (self w) /\
      model_loaded (self w') = model_loaded (self w) /\
      img_size (self w') = img_size (self w)) /\
  (forall paths : list string,
      let w' := snd (predict_batch env paths w) in
      model (self w') = model (self w) /\
      model_loaded (self w') = model_loaded (self w) /\
      img_size (self w') = img_size (self w)).
Proof.
  split.
  - intros path w'. unfold w'. now rewrite predict_self.
  - intros paths w'. unfold w'. now rewrite predict_batch_self.
Qed.

(** ** Batches *)

(** The batch returns exactly when the calls of [predict], made from left
    to right, each in the world the one before it left, all return. *)
Lemma predict_batch_returns (env : environment) (paths : list string) :
  forall (w : world) (rs : list PredictionResult) (w' : world),
    predict_batch env paths w = (Ok rs, w') <->
    exists ws : nat -> world,
      ws 0%nat = w /\ ws (length paths) = w' /\
      length rs = length paths /\
      forall (i : nat) (path : string),
        paths !! i = Some path ->
        exists r : PredictionResult,
          rs !! i = Some r /\ predict env path (ws i) = (Ok r, ws (S i)).
Proof.
  induction paths as [| p rest IH]; intros w rs w'.
  - simpl. unfold ret. split.
    + intros [= <- <-]. exists (fun _ => w).
      repeat split. intros i path Hi. discriminate Hi.
    + intros (ws & H0 & Hn & Hlen & _).
      destruct rs; [| discriminate Hlen]. congruence.
  - simpl predict_batch. unfold bind. split.
    + destruct (predict env p w) as [[r | e] w1] eqn:Er; [| discriminate].
      destruct (predict_batch env rest w1) as [[rs1 | e] w2] eqn:Ers;
        [| discriminate].
      unfold ret. intros [= <- <-].
      apply (IH w1 rs1 w2) in Ers as (ws & H0 & Hn & Hlen & Hall).
      exists (fun i => match i with O => w | S j => ws j end).
      split; [reflexivity |]. split; [exact Hn |].
      split; [simpl; now rewrite Hlen |].
      intros [| i] path Hi.
      * injection Hi as <-. exists r. split; [reflexivity |].
        now rewrite H0.
      * exact (Hall i path Hi).
    + intros (ws & H0 & Hn & Hlen & Hall).
      destruct (Hall 0%nat p eq_refl) as (r & Hr & Hp).
      destruct rs as [| r0 rs1]; [discriminate Hr |].
      injection Hr as ->. rewrite H0 in Hp. rewrite Hp.
      assert (predict_batch env rest (ws 1%nat) = (Ok rs1, w')) as ->.
      { apply IH. exists (fun i => ws (S i)).
        split; [reflexivity |]. split; [exact Hn |].
        split; [now injection Hlen |].
        intros i path Hi. exact (Hall (S i) path Hi). }
      reflexivity.
Qed.

(** The batch raises exactly when one call raises after the calls before
    it returned; it raises that exception, from the world that call
    left. *)
Lemma predict_batch_raises (env : environment) (paths : list string) :
  forall (w : world) (e : exn) (w' : world),
    predict_batch env paths w = (Raise e, w') <->
    exists (i : nat) (path : string) (ws : nat -> world),
      ws 0%nat = w /\
      paths !! i = Some path /\
      (forall (j : nat) (pj : string),
          (j < i)%nat -> paths !! j = Some pj ->
          exists r : PredictionResult,
            predict env pj (ws j) = (Ok r, ws (S j))) /\
      predict env path (ws i) = (Raise e, w').
Proof.
  induction paths as [| p rest IH]; intros w e w'.
  - simpl. unfold ret. split; [discriminate |].
    intros (i & path & ws & _ & Hi & _). discriminate Hi.
  - simpl predict_batch. unfold bind. split.
    + destruct (predict env p w) as [[r | e0] w1] eqn:Er.
      * destruct (predict_batch env rest w1) as [[rs1 | e1] w2] eqn:Ers;
          [discriminate |].
        intros [= <- <-].
        apply (IH w1 e1 w2) in Ers as (i & path & ws & H0 & Hi & Hpre & Hp).
        exists (S i), path, (fun j => match j with O => w | S j' => ws j' end).
        split; [reflexivity |]. split; [exact Hi |]. split; [| exact Hp].
        intros [| j] pj Hj Hpj.
        -- injection Hpj as <-. exists r. now rewrite H0.
        -- apply (Hpre j pj); [lia | exact Hpj].
      * intros [= <- <-]. exists 0%nat, p, (fun _ => w).
        split; [reflexivity |]. split; [reflexivity |].
        split; [| exact Er]. intros j pj Hj. lia.
    + intros (i & path & ws & H0 & Hi & Hpre & Hp).
      destruct i as [| i].
      * injection Hi as <-. rewrite H0 in Hp. now rewrite Hp.
      * destruct (Hpre 0%nat p ltac:(lia) eq_refl) as (r & Hr).
        rewrite H0 in Hr. rewrite Hr.
        assert (predict_batch env rest (ws 1%nat) = (Raise e, w')) as ->.
        { apply IH. exists i, path, (fun j => ws (S j)).
          split; [reflexivity |]. split; [exact Hi |]. split; [| exact Hp].
          intros j pj Hj Hpj. apply (Hpre (S j) pj); [lia | exact Hpj]. }
        reflexivity.
Qed.

(** C8.  [predict_batch] is [predict] applied to the paths from left to
    right, each call starting in the world the call before it left
    ([ws i] is the world before call [i]).  It returns the list [rs]
    exactly when every call returns and [rs] holds, in the order of the
    paths, what the calls returned.  It raises [e] exactly when the call
    on some path raises [e] after the calls on the paths before it
    returned; the later paths are not visited and no list is returned. *)
Theorem predict_batch_elementwise (env : environment) (paths : list string)
    (w : world) :
  (forall (rs : list PredictionResult) (w' : world),
      predict_batch env paths w = (Ok rs, w') <->
      exists ws : nat -> world,
        ws 0%nat = w /\ ws (length paths) = w' /\
        length rs = length paths /\
        forall (i : nat) (path : string),
          paths !! i = Some path ->
          exists r : PredictionResult,
            rs !! i = Some r /\ predict env path (ws i) = (Ok r, ws (S i))) /\
  (forall (e : exn) (w' : world),
      predict_batch env paths w = (Raise e, w') <->
      exists (i : nat) (path : string) (ws : nat -> world),
        ws 0%nat = w /\
        paths !! i = Some path /\
        (forall (j : nat) (pj : string),
            (j < i)%nat -> paths !! j = Some pj ->
            exists r : PredictionResult,
              predict env pj (ws j) = (Ok r, ws (S j))) /\
        predict env path (ws i) = (Raise e, w')).
Proof.
  split.
  - intros rs w'. apply predict_batch_returns.
  - intros e w'. apply predict_batch_raises.
Qed.

(** The theorem above on three paths.  In demo mode the three calls return
    and the batch returns their results in order, "notes.txt" included;
    with the model held, the call on the undecodable "notes.txt" raises
    after "red.png" was classified, and so does the batch. *)
Lemma predict_batch_elementwise_witness :
  predict_batch (Sample.env true) ["red.png"; "notes.txt"; "gray.png"]
    Sample.demo
    = (Ok [build_result Glass 0 87; build_result Metal 1 91;
           build_result Paper 3 95],
       after_draws 6 Sample.demo) /\
  predict_batch (Sample.env true) ["red.png"; "notes.txt"; "gray.png"]
    Sample.loaded = (Raise UnidentifiedImageError, Sample.loaded).
Proof.
  split.
  - apply (predict_batch_elementwise (Sample.env true)
             ["red.png"; "notes.txt"; "gray.png"] Sample.demo).
    exists (fun i => after_draws (2 * i) Sample.demo).
    split; [reflexivity |]. split; [reflexivity |]. split; [reflexivity |].
    intros [| [| [| i]]] path Hi; try discriminate Hi;
      injection Hi as <-; eexists; split; reflexivity.
  - apply (predict_batch_elementwise (Sample.env true)
             ["red.png"; "notes.txt"; "gray.png"] Sample.loaded).
    exists 1%nat, "notes.txt", (fun _ => Sample.loaded).
    split; [reflexivity |]. split; [reflexivity |]. split; [| reflexivity].
    intros [| j] pj Hj Hpj; [| lia].
    injection Hpj as <-. eexists. reflexivity.
Defined.

(** ** Construction *)

(** [_load_model] on a path that is missing, empty, or refused by Keras:
    it returns, and no model is held. *)
Lemma _load_model_unusable (env : environment) (path : string) (w : world) :
  files env !! path = None \/
  files env !! path = Some [] \/
  (exists (bytes : list byte) (e : exn),
      files env !! path = Some bytes /\ keras_deserialize env bytes = Raise e) ->
  exists w' : world,
    _load_model env path w = (Ok tt, w') /\
    model (self w') = None /\ model_loaded (self w') = false /\
    img_size (self w') = img_size (self w) /\ rng_pos w' = rng_pos w.
Proof.
  intros Hcase.
  unfold _load_model, try_except, bind, os_path_exists, os_path_getsize,
    keras_models_load_model, ret, raise, lift.
  destruct (files env !! path) as [bytes |] eqn:Hfile.
  - cbn [negb].
    destruct (Z.of_nat (length bytes) =? 0) eqn:Hsize.
    + eexists. split; [reflexivity |]. repeat split.
    + destruct (TF_AVAILABLE env);
        [| eexists; split; [reflexivity |]; repeat split].
      destruct Hcase as [Hc | [Hc | (bytes' & e & Hc & Hraise)]];
        [discriminate | injection Hc as ->; discriminate |].
      injection Hc as <-. rewrite Hraise.
      eexists. split; [reflexivity |]. repeat split.
  - eexists. split; [reflexivity |]. repeat split.
Qed.

(** Whatever the path, the disk and Keras do, [__init__] returns: the only
    call that can raise sits inside the [try] of [_load_model], and the
    handler only asks for the size of a file it has just seen. *)
Lemma init_returns (env : environment) (model_path : option string)
    (w : world) :
  exists w' : world, __init__ env model_path w = (Ok tt, w').
Proof.
  unfold __init__.
  unfold bind at 1 2 3. unfold set_model at 1, set_model_loaded at 1,
    set_img_size. cbn [self model model_loaded img_size rng_pos stdout].
  destruct model_path as [path |]; [| eexists; reflexivity].
  destruct (String.eqb path ""); [eexists; reflexivity |].
  unfold bind at 1. unfold os_path_exists at 1. unfold ret at 1.
  destruct (files env !! path) as [bytes |] eqn:Hfile;
    [| eexists; reflexivity].
  destruct (TF_AVAILABLE env) eqn:Htf; cbn [andb]; [| eexists; reflexivity].
  unfold _load_model, try_except, bind, os_path_exists, os_path_getsize,
    keras_models_load_model, ret, raise, lift.
  rewrite Hfile, Htf. cbn [negb].
  destruct (Z.of_nat (length bytes) =? 0); [eexists; reflexivity |].
  destruct (keras_deserialize env bytes); eexists; reflexivity.
Qed.

(** C4.  For a model path that is absent, names no file, names an empty
    file, or names a file Keras raises on, [__init__] returns normally with
    [model = None] and [model_loaded = False]: the predictor is in the
    Fallback state and the exception, if any, stops inside [_load_model]. *)
Theorem init_degrades_to_fallback (env : environment)
    (model_path : option string) (w : world) :
  (forall path : string,
      model_path = Some path ->
      files env !! path = None \/
      files env !! path = Some [] \/
      (exists (bytes : list byte) (e : exn),
          files env !! path = Some bytes /\
          keras_deserialize env bytes = Raise e)) ->
  exists w' : world,
    __init__ env model_path w = (Ok tt, w') /\
    self w' = no_model /\ Fallback w'.
Proof.
  intros Hcase.
  assert (forall w' : world,
            model (self w') = None -> model_loaded (self w') = false ->
            img_size (self w') = 224%nat -> self w' = no_model) as Hself.
  { intros [[m b n] ? ?]. simpl. now intros -> -> ->. }
  unfold __init__.
  unfold bind at 1 2 3. unfold set_model at 1, set_model_loaded at 1,
    set_img_size. cbn [self model model_loaded img_size rng_pos stdout].
  destruct model_path as [path |];
    [| eexists; split; [reflexivity |]; split; [reflexivity | now left]].
  destruct (String.eqb path "");
    [eexists; split; [reflexivity |]; split; [reflexivity | now left] |].
  unfold bind at 1. unfold os_path_exists at 1. unfold ret at 1.
  destruct (files env !! path) as [bytes |] eqn:Hfile;
    [| eexists; split; [reflexivity |]; split; [reflexivity | now left]].
  destruct (TF_AVAILABLE env); cbn [andb];
    [| eexists; split; [reflexivity |]; split; [reflexivity | now left]].
  destruct (_load_model_unusable env path
              {| self := no_model; rng_pos := rng_pos w; stdout := stdout w |}
              (Hcase path eq_refl))
    as (w' & Hrun & Hm & Hl & Hs & _).
  exists w'. split; [exact Hrun |]. split; [| now left].
  apply Hself; assumption.
Qed.

(** The theorem above on the sample disk: the empty "empty.h5". *)
Lemma init_degrades_to_fallback_witness :
  exists w' : world,
    __init__ (Sample.env true) (Some "empty.h5") Sample.blank = (Ok tt, w') /\
    self w' = no_model /\ Fallback w'.
Proof.
  apply (init_degrades_to_fallback (Sample.env true) (Some "empty.h5")
           Sample.blank).
  intros path [= <-]. right. left. reflexivity.
Defined.

Example init_missing_file :
  __init__ (Sample.env true) (Some "absent.h5") Sample.blank
    = (Ok tt, Sample.demo).
Proof. reflexivity. Qed.

Example init_empty_file :
  __init__ (Sample.env true) (Some "empty.h5") Sample.blank
    = (Ok tt, {| self := no_model; rng_pos := 0;
                 stdout := [msg_empty_file "empty.h5"; msg_ensure_saved] |}).
Proof. reflexivity. Qed.

Example init_corrupt_file :
  __init__ (Sample.env true) (Some "corrupt.h5") Sample.blank
    = (Ok tt, {| self := no_model; rng_pos := 0;
                 stdout := [msg_error_loading
                              (ValueError "file signature not found");
                            msg_model_path "corrupt.h5";
                            msg_file_exists 1] |}).
Proof. reflexivity. Qed.

Example init_good_file :
  __init__ (Sample.env true) (Some "model.h5") Sample.blank
    = (Ok tt, Sample.loaded).
Proof. reflexivity. Qed.

(** C10.  When TensorFlow could not be imported, [__init__] ends in the
    Fallback state for every model path, a loadable model file included;
    it only prints the demo-mode line, [_load_model] is not entered, and
    every later prediction of that predictor is the synthetic one. *)
Theorem init_without_tensorflow (env : environment)
    (model_path : option string) (w : world) :
  TF_AVAILABLE env = false ->
  let w' := {| self := no_model; rng_pos := rng_pos w;
               stdout := stdout w ++ [msg_demo_mode] |} in
  __init__ env model_path w = (Ok tt, w') /\
  Fallback w' /\
  forall (path : string) (w1 : world),
    self w1 = self w' -> predict env path w1 = demo_prediction env w1.
Proof.
  intros Htf w'. split; [| split].
  - unfold __init__.
    unfold bind at 1 2 3. unfold set_model at 1, set_model_loaded at 1,
      set_img_size. cbn [self model model_loaded img_size rng_pos stdout].
    destruct model_path as [path |]; [| reflexivity].
    destruct (String.eqb path ""); [reflexivity |].
    unfold bind, os_path_exists, ret. rewrite Htf, andb_false_r. reflexivity.
  - now left.
  - intros path w1 Hself. apply predict_fallback. left. now rewrite Hself.
Qed.

(** The theorem above on the sample disk: "model.h5" loads when TensorFlow
    is there ([init_good_file]) and is not looked at when it is not. *)
Lemma init_without_tensorflow_witness :
  __init__ (Sample.env false) (Some "model.h5") Sample.blank
    = (Ok tt, Sample.demo) /\
  predict (Sample.env false) "red.png" Sample.demo
    = demo_prediction (Sample.env false) Sample.demo.
Proof.
  destruct (init_without_tensorflow (Sample.env false) (Some "model.h5")
              Sample.blank eq_refl) as (Hinit & _ & Hpredict).
  split; [exact Hinit | exact (Hpredict "red.png" Sample.demo eq_refl)].
Defined.

(** ** Preprocessing *)

Lemma values_NDArr (P : Q -> Prop) (items : list ndarray) :
  Forall (fun a => Forall P (values a)) items ->
  Forall P (values (NDArr items)).
Proof.
  intros H. simpl. induction H as [| a l Ha _ IH]; simpl.
  - constructor.
  - apply Forall_app. split; assumption.
Qed.

(** The array of an image of one colour, scaled by 1/255. *)
Lemma to_array_solid (im : Image.image) (w h : nat) (bands : list Z) :
  Image.size im = (w, h) ->
  (forall x y : nat, Image.getpixel im x y = bands) ->
  np_divide (Image.to_array im) 255 =
    NDArr (map (fun _ : nat =>
             NDArr (map (fun _ : nat =>
                      np_divide (Image.pixel_entry bands) 255) (seq 0 w)))
           (seq 0 h)).
Proof.
  intros Hsize Hpix. unfold Image.to_array. rewrite Hsize. simpl.
  f_equal. rewrite map_map. apply map_ext. intros y. simpl.
  f_equal. rewrite map_map. apply map_ext. intros x. now rewrite Hpix.
Qed.

Lemma nearest_resize_contract (tf : bool) : resize_contract (Sample.env tf).
Proof.
  intros im size. repeat split. intros bands H x y. simpl. apply H.
Qed.

(** A three-band image of one colour comes out as a tensor of shape
    [[1, s, s, 3]] with values in [[0, 1]]. *)
Lemma three_band_tensor (im : Image.image) (s : nat) (r g b : Z) :
  (0 < s)%nat ->
  Image.size im = (s, s) ->
  (forall x y : nat, Image.getpixel im x y = [r; g; b]) ->
  Forall (fun v => 0 <= v <= 255) [r; g; b] ->
  let t := np_expand_dims0 (np_divide (Image.to_array im) 255) in
  shape t = [1; s; s; 3]%nat /\ Forall (fun v => (0 <= v <= 1)%Q) (values t).
Proof.
  intros Hs Hsize Hpix Hrange t. unfold t, np_expand_dims0.
  rewrite (to_array_solid im s s [r; g; b] Hsize Hpix).
  split.
  - destruct s as [| s']; [lia |].
    cbn [shape length]. rewrite !length_map, !length_seq.
    cbn [seq map]. cbn [shape length]. rewrite !length_map, !length_seq.
    cbn [Image.pixel_entry np_divide map shape length]. reflexivity.
  - apply values_NDArr. constructor; [| constructor].
    apply values_NDArr, Forall_map, Forall_forall. intros y _.
    apply values_NDArr, Forall_map, Forall_forall. intros x _.
    cbn [Image.pixel_entry np_divide map values concat app].
    inversion Hrange as [| ? ? Hr Hgb]; subst.
    inversion Hgb as [| ? ? Hg Hb']; subst.
    inversion Hb' as [| ? ? Hb _]; subst.
    assert (forall v : Z, 0 <= v <= 255 -> (0 <= inject_Z v / 255 <= 1)%Q)
      as Hscale.
    { intros v [Hv0 Hv1]. unfold Qle, Qdiv, Qmult, Qinv, inject_Z. simpl. lia. }
    repeat constructor; apply Hscale; assumption.
Qed.

(** For an image that decodes to mode "RGB" or "RGBA" in one colour,
    [preprocess_image] returns a tensor of shape [[1, s, s, 3]] with values
    in [[0, 1]], where [s] is the predictor's [img_size]; the alpha band of
    an "RGBA" image is dropped. *)
Lemma preprocess_rgb_or_rgba (env : environment) (path : string) (w : world)
    (bytes : list byte) (im : Image.image) (n : nat) (bands : list Z) :
  resize_contract env ->
  files env !! path = Some bytes ->
  pil_decode env bytes = Ok im ->
  solid_color im n bands ->
  (Image.mode im = "RGB" /\ length bands = 3%nat) \/
  (Image.mode im = "RGBA" /\ length bands = 4%nat) ->
  Forall (fun v => 0 <= v <= 255) bands ->
  (0 < img_size (self w))%nat ->
  exists t : ndarray,
    preprocess_image env path w = (Ok t, w) /\
    shape t = [1; img_size (self w); img_size (self w); 3]%nat /\
    Forall (fun v => (0 <= v <= 1)%Q) (values t).
Proof.
  intros Hres Hfile Hdec [_ Hpix] Hmode Hrange Hs.
  unfold preprocess_image, bind, get_self, Image_open, lift, ret.
  rewrite Hfile, Hdec.
  set (s := img_size (self w)) in *.
  destruct Hmode as [[Hm Hlen] | [Hm Hlen]]; rewrite Hm; cbn [String.eqb].
  - destruct bands as [| r [| g [| b [| ? ?]]]]; try discriminate Hlen.
    eexists. split; [reflexivity |].
    destruct (Hres im (s, s)) as (_ & Hsize & Hsolid).
    apply (three_band_tensor _ s r g b Hs Hsize (Hsolid _ Hpix) Hrange).
  - destruct bands as [| r [| g [| b [| a [| ? ?]]]]]; try discriminate Hlen.
    eexists. split; [vm_compute String.eqb; reflexivity |].
    destruct (Hres (Image.convert_RGBA_to_RGB im) (s, s))
      as (_ & Hsize & Hsolid).
    apply (three_band_tensor _ s r g b Hs Hsize).
    + apply Hsolid. intros x y. simpl. now rewrite Hpix.
    + inversion Hrange as [| ? ? Hr H1]; subst.
      inversion H1 as [| ? ? Hg H2]; subst.
      inversion H2 as [| ? ? Hb _]; subst.
      repeat (constructor; [assumption |]). constructor.
Qed.

(** C5, at a grayscale image.  "gray.png" decodes to a 2 by 2 image of mode
    "L" in one colour; it is not converted, its array has no band axis, and
    the tensor has shape [[1, 224, 224]], not [[1, 224, 224, 3]].  For
    "gray_alpha.png" (mode "LA") the alpha band stays: the shape is
    [[1, 224, 224, 2]]. *)
Theorem preprocess_grayscale_shape :
  (exists t : ndarray,
      preprocess_image (Sample.env true) "gray.png" Sample.loaded
        = (Ok t, Sample.loaded) /\
      shape t = [1; 224; 224]%nat) /\
  (exists t : ndarray,
      preprocess_image (Sample.env true) "gray_alpha.png" Sample.loaded
        = (Ok t, Sample.loaded) /\
      shape t = [1; 224; 224; 2]%nat).
Proof.
  split; eexists; (split; [reflexivity | vm_compute; reflexivity]).
Qed.

Example preprocess_red_png :
  exists t : ndarray,
    preprocess_image (Sample.env true) "red.png" Sample.loaded
      = (Ok t, Sample.loaded) /\
    shape t = [1; 224; 224; 3]%nat /\
    Forall (fun v => (0 <= v <= 1)%Q) (values t).
Proof.
  apply (preprocess_rgb_or_rgba (Sample.env true) "red.png" Sample.loaded
           [x02] (Sample.solid "RGB" 2 [255; 0; 0]) 2 [255; 0; 0]).
  - apply nearest_resize_contract.
  - reflexivity.
  - reflexivity.
  - split; reflexivity.
  - left. split; reflexivity.
  - repeat constructor; lia.
  - simpl. lia.
Qed.

(** * Further properties of the predictor *)

(** ** Construction, the loading path *)

(** What [__init__] leaves behind, in every case: it returns, the flag and
    the handle agree, the input size is 224 and nothing is drawn from the
    generator. *)
Lemma init_outcome (env : environment) (model_path : option string)
    (w : world) :
  exists (m : option keras_model) (msgs : list message),
    __init__ env model_path w =
      (Ok tt, {| self := {| model := m;
                            model_loaded :=
                              match m with Some _ => true | None => false end;
                            img_size := 224 |};
                 rng_pos := rng_pos w;
                 stdout := stdout w ++ msgs |}) /\
    (forall m' : keras_model,
        m = Some m' <->
        exists (path : string) (bytes : list byte),
          model_path = Some path /\ path <> "" /\
          files env !! path = Some bytes /\ bytes <> [] /\
          TF_AVAILABLE env = true /\
          keras_deserialize env bytes = Ok m').
Proof.
  assert (forall (l : list message) (a b c : message),
             (((l ++ [a]) ++ [b]) ++ [c] = l ++ [a; b; c])%list) as Happ3.
  { intros. now rewrite <- !app_assoc. }
  assert (forall (l : list message) (a b : message),
             ((l ++ [a]) ++ [b] = l ++ [a; b])%list) as Happ2.
  { intros. now rewrite <- !app_assoc. }
  unfold __init__.
  unfold bind at 1 2 3. unfold set_model at 1, set_model_loaded at 1,
    set_img_size. cbn [self model model_loaded img_size rng_pos stdout].
  destruct model_path as [path |].
  2:{ exists None, [msg_demo_mode]. split; [reflexivity |].
      intros m'. split; [discriminate | intros (? & ? & ? & _); discriminate]. }
  destruct (String.eqb path "") eqn:Hempty.
  { exists None, [msg_demo_mode]. split; [reflexivity |].
    apply String.eqb_eq in Hempty.
    intros m'. split; [discriminate |].
    intros (? & ? & [= <-] & Hne & _). contradiction. }
  apply String.eqb_neq in Hempty.
  unfold bind at 1. unfold os_path_exists at 1. unfold ret at 1.
  destruct (files env !! path) as [bytes |] eqn:Hfile.
  2:{ exists None, [msg_demo_mode]. split; [reflexivity |].
      intros m'. split; [discriminate |].
      intros (? & ? & [= <-] & _ & Hf & _). congruence. }
  destruct (TF_AVAILABLE env) eqn:Htf; cbn [andb].
  2:{ exists None, [msg_demo_mode]. split; [reflexivity |].
      intros m'. split; [discriminate |].
      intros (? & ? & _ & _ & _ & _ & ? & _). discriminate. }
  unfold _load_model, try_except, bind, os_path_exists, os_path_getsize,
    keras_models_load_model, ret, raise, lift.
  rewrite Hfile, Htf. cbn [negb].
  destruct (Z.of_nat (length bytes) =? 0) eqn:Hsize.
  { exists None, [msg_empty_file path; msg_ensure_saved].
    split; [unfold print, set_model, set_model_loaded; cbn; now rewrite Happ2 |].
    apply Z.eqb_eq in Hsize.
    intros m'. split; [discriminate |].
    intros (? & bytes' & [= <-] & _ & Hf & Hne & _).
    rewrite Hfile in Hf. injection Hf as <-.
    destruct bytes; [contradiction | simpl in Hsize; lia]. }
  destruct (keras_deserialize env bytes) as [m | e] eqn:Hdes.
  - exists (Some m), [msg_loaded path (Z.of_nat (length bytes))].
    split; [reflexivity |].
    intros m'. split.
    + intros [= <-]. exists path, bytes. repeat split; try assumption.
      intros ->. simpl in Hsize. discriminate.
    + intros (? & bytes' & [= <-] & _ & Hf & _ & _ & Hd).
      rewrite Hfile in Hf. injection Hf as <-. congruence.
  - exists None, [msg_error_loading e; msg_model_path path;
                  msg_file_exists (Z.of_nat (length bytes))].
    split; [unfold print, set_model, set_model_loaded; cbn;
            now rewrite Happ3 |].
    intros m'. split; [discriminate |].
    intros (? & bytes' & [= <-] & _ & Hf & _ & _ & Hd).
    rewrite Hfile in Hf. injection Hf as <-. congruence.
Qed.

(** X1.  After [__init__] the predictor holds the model [m] with the flag
    set exactly when the path is a non-empty string naming an existing,
    non-empty file, TensorFlow was imported, and Keras read [m] from the
    file. *)
Theorem init_loaded_iff (env : environment) (model_path : option string)
    (w : world) (m : keras_model) :
  Loaded (snd (__init__ env model_path w)) m <->
  exists (path : string) (bytes : list byte),
    model_path = Some path /\ path <> "" /\
    files env !! path = Some bytes /\ bytes <> [] /\
    TF_AVAILABLE env = true /\
    keras_deserialize env bytes = Ok m.
Proof.
  destruct (init_outcome env model_path w) as (m0 & msgs & Hrun & Hiff).
  rewrite Hrun. unfold Loaded. cbn [snd self model model_loaded].
  rewrite <- Hiff. split.
  - intros [_ H]. exact H.
  - intros ->. split; reflexivity.
Qed.

(** X2.  [__init__] always returns, and the object it leaves is
    consistent: [model_loaded] is set if and only if a model is held,
    [img_size] is 224, and without a model the object is exactly the
    demo-mode one.  The generator is not touched. *)
Theorem init_flag_matches_handle (env : environment)
    (model_path : option string) (w : world) :
  let w' := snd (__init__ env model_path w) in
  fst (__init__ env model_path w) = Ok tt /\
  (model_loaded (self w') = true <-> is_Some (model (self w'))) /\
  (model (self w') = None -> self w' = no_model) /\
  img_size (self w') = 224%nat /\
  rng_pos w' = rng_pos w.
Proof.
  destruct (init_outcome env model_path w) as (m0 & msgs & Hrun & _).
  rewrite Hrun. cbn [fst snd self model model_loaded img_size rng_pos].
  split; [reflexivity |]. split; [| split; [| split; reflexivity]].
  - destruct m0; split; intros H; try reflexivity; try discriminate; eauto.
    destruct H as [? H]. discriminate H.
  - intros ->. reflexivity.
Qed.

(** ** The decoration of a result *)

(** X3.  Every result [predict] returns carries the name, type, tip, CO2
    figure, colour and icon that the table holds for its [category_id];
    its [category] is "Compostable" for category 2 and "Recyclable" for
    every other. *)
Theorem prediction_matches_table (env : environment) (path : string)
    (w w' : world) (r : PredictionResult) :
  predict env path w = (Ok r, w') ->
  exists info : CategoryInfo,
    WASTE_CATEGORIES !! category_id r = Some info /\
    item r = c_name info /\ category r = c_type info /\
    tip r = c_tip info /\ co2 r = c_co2 info /\
    color r = c_color info /\ icon r = c_icon info /\
    category r = (if category_id r =? 2 then "Compostable" else "Recyclable").
Proof.
  intros Hrun.
  assert (exists (info : CategoryInfo) (k : Z) (c : Q),
             dict_getitem WASTE_CATEGORIES k = Ok info /\
             r = build_result info k c) as (info & k & c & Hinfo & ->).
  { destruct (Loaded_or_Fallback w) as [[m HL] | HF].
    - rewrite (predict_loaded env path w m HL) in Hrun.
      destruct (preprocess_image env path w) as [[t | e] w1]; [| discriminate].
      destruct (model_predict m t) as [out | e]; [| discriminate].
      destruct (seq_getitem out 0) as [row | e]; [| discriminate].
      destruct (np_argmax row) as [k | e]; [| discriminate].
      destruct (seq_getitem row k) as [p | e]; [| discriminate].
      destruct (dict_getitem WASTE_CATEGORIES k) as [info | e] eqn:Hinfo;
        [| discriminate].
      injection Hrun as <- _. eauto.
    - rewrite (predict_fallback env path w HF) in Hrun.
      unfold demo_prediction in Hrun.
      destruct (dict_getitem WASTE_CATEGORIES _) as [info | e] eqn:Hinfo;
        [| discriminate].
      injection Hrun as <- _. eauto. }
  apply dict_getitem_Ok_range in Hinfo as [Hlook Hrange].
  rewrite len_WASTE_CATEGORIES in Hrange.
  exists info. cbn [build_result category_id item category tip co2 color icon].
  repeat (split; [first [exact Hlook | reflexivity] |]).
  rewrite WASTE_CATEGORIES_inside in Hlook by exact Hrange.
  injection Hlook as <-.
  assert (k = 0 \/ k = 1 \/ k = 2 \/ k = 3 \/ k = 4 \/ k = 5) as Hc by lia.
  destruct Hc as [-> | [-> | [-> | [-> | [-> | ->]]]]]; reflexivity.
Qed.

Lemma prediction_matches_table_witness :
  exists info : CategoryInfo,
    WASTE_CATEGORIES !! 2 = Some info /\
    "Organic Waste" = c_name info /\ "Compostable" = c_type info.
Proof.
  destruct (prediction_matches_table (Sample.env true) "red.png"
              Sample.loaded Sample.loaded
              (build_result Organic_Waste 2 30) eq_refl)
    as (info & H1 & H2 & H3 & _).
  exists info. split; [exact H1 |]. split; [exact H2 | exact H3].
Defined.

(** ** A model with more classes than the table *)

Lemma first_maximum_unique (l : list Q) (k k' : nat) (p p' : Q) :
  first_maximum l k p -> first_maximum l k' p' -> k = k'.
Proof.
  intros (Hk & Hmax & Hfirst) (Hk' & Hmax' & Hfirst').
  destruct (Nat.lt_total k k') as [Hlt | [Heq | Hlt]]; [| exact Heq |].
  - pose proof (Hfirst' k p Hlt Hk) as H1.
    pose proof (Hmax k' p' Hk') as H2. exfalso. lra.
  - pose proof (Hfirst k' p' Hlt Hk') as H1.
    pose proof (Hmax' k p Hk) as H2. exfalso. lra.
Qed.

(** X4.  In the Loaded state, when the first largest score of the model's
    answer sits at an index [k] of 6 or more (a model trained with more
    classes than the table has entries), [predict] raises [KeyError k]:
    the index is not clamped and no result is built. *)
Theorem loaded_prediction_outside_table (env : environment) (path : string)
    (w w1 : world) (m : keras_model) (t : ndarray)
    (probs : list Q) (rest : list (list Q)) (k : nat) (p : Q) :
  Loaded w m ->
  preprocess_image env path w = (Ok t, w1) ->
  model_predict m t = Ok (probs :: rest) ->
  first_maximum probs k p ->
  len WASTE_CATEGORIES <= Z.of_nat k ->
  predict env path w = (Raise (KeyError (Z.of_nat k)), w1).
Proof.
  intros HL Hpre Hm Hmax Hk. rewrite len_WASTE_CATEGORIES in Hk.
  destruct (np_argmax_first_maximum probs) as (k' & p' & Hk' & Hmax').
  { intros ->. destruct Hmax as [H _]. discriminate H. }
  pose proof (first_maximum_unique _ _ _ _ _ Hmax Hmax') as <-.
  destruct Hmax as (Hlook & _).
  rewrite (predict_loaded env path w m HL), Hpre, Hm.
  rewrite seq_getitem_head, Hk', (seq_getitem_lookup probs k p Hlook).
  unfold dict_getitem. rewrite WASTE_CATEGORIES_outside by lia. reflexivity.
Qed.

Lemma loaded_prediction_outside_table_witness :
  predict (Sample.env true) "red.png" Wide.loaded
    = (Raise (KeyError 7), Wide.loaded).
Proof.
  apply (loaded_prediction_outside_table (Sample.env true) "red.png"
           Wide.loaded Wide.loaded Wide.wide_model Sample.red_tensor
           Wide.scores [] 7 (4 # 10)).
  - split; reflexivity.
  - reflexivity.
  - reflexivity.
  - split; [reflexivity |]. split.
    + intros j q Hj.
      do 8 (destruct j as [| j]; [injection Hj as <-; discriminate |]).
      discriminate Hj.
    + intros j q Hlt Hj.
      do 7 (destruct j as [| j]; [injection Hj as <-; reflexivity |]).
      lia.
  - vm_compute. discriminate.
Defined.

(** ** What a call does to its surroundings *)

(** X5.  In the Fallback state the result of [predict] is a function of
    the generator alone: two calls in the same world with different paths,
    on different disks and with different decoders, resizers and Keras
    give the same outcome as soon as the generators agree. *)
Theorem fallback_ignores_image (env env' : environment)
    (path path' : string) (w : world) :
  Fallback w ->
  (forall n : nat, random_sample env n = random_sample env' n) ->
  predict env path w = predict env' path' w.
Proof.
  intros HF Hsame.
  rewrite (predict_fallback env path w HF), (predict_fallback env' path' w HF).
  unfold demo_prediction. now rewrite !Hsame.
Qed.

Lemma fallback_ignores_image_witness :
  predict (Sample.env true) "red.png" Sample.demo
    = predict (Sample.env false) "no such file" Sample.demo.
Proof.
  apply (fallback_ignores_image (Sample.env true) (Sample.env false)
           "red.png" "no such file" Sample.demo).
  - left. reflexivity.
  - intros n. reflexivity.
Defined.

(** X6.  The only trace [predict] leaves in the world: with a model held
    nothing at all changes (no draw, no output), without one the generator
    advances by two draws; this holds whether the call returns or
    raises. *)
Theorem prediction_world_effect (env : environment) (path : string)
    (w : world) :
  snd (predict env path w) =
    match model_loaded (self w), model (self w) with
    | true, Some _ => w
    | _, _ => after_draws 2 w
    end.
Proof.
  destruct (Loaded_or_Fallback w) as [[m [H1 H2]] | HF].
  - rewrite (predict_loaded env path w m (conj H1 H2)), H1, H2.
    pose proof (preprocess_image_world env path w) as Hw.
    destruct (preprocess_image env path w) as [[t | e] w1];
      simpl in Hw; subst w1; [| reflexivity].
    destruct (model_predict m t) as [out | e]; [| reflexivity].
    destruct (seq_getitem out 0) as [row | e]; [| reflexivity].
    destruct (np_argmax row) as [k | e]; [| reflexivity].
    destruct (seq_getitem row k) as [p | e]; [| reflexivity].
    destruct (dict_getitem WASTE_CATEGORIES k); reflexivity.
  - rewrite (predict_fallback env path w HF). unfold demo_prediction.
    assert (match model_loaded (self w), model (self w) with
            | true, Some _ => w
            | _, _ => after_draws 2 w
            end = after_draws 2 w) as ->.
    { destruct HF as [-> | ->]; [reflexivity |].
      destruct (model_loaded (self w)); reflexivity. }
    destruct (dict_getitem WASTE_CATEGORIES _); reflexivity.
Qed.

(** One demo-mode call succeeds when the generator keeps its contract. *)
Lemma fallback_prediction_step (env : environment) (path : string)
    (w : world) :
  Fallback w -> generator_ok env ->
  exists r : PredictionResult, predict env path w = (Ok r, after_draws 2 w).
Proof.
  intros HF Hg. rewrite (predict_fallback env path w HF).
  unfold demo_prediction. destruct (Hg (rng_pos w)) as [Hint _].
  assert (0 <= randint_value (random_sample env (rng_pos w)) 0 6 < 6) as Hk
    by (apply Hint; lia).
  unfold dict_getitem. rewrite WASTE_CATEGORIES_inside by exact Hk.
  eexists. reflexivity.
Qed.

(** X7.  In the Fallback state, with a generator that keeps its contract,
    a batch over any list of paths succeeds: it returns one result per
    path and has made two draws per path. *)
Theorem fallback_batch_succeeds (env : environment) (paths : list string)
    (w : world) :
  Fallback w -> generator_ok env ->
  exists rs : list PredictionResult,
    predict_batch env paths w
      = (Ok rs, after_draws (2 * length paths) w) /\
    length rs = length paths.
Proof.
  intros HF Hg. revert w HF.
  induction paths as [| path rest IH]; intros w HF.
  - exists []. split; [| reflexivity].
    simpl. unfold ret, after_draws. destruct w; reflexivity.
  - destruct (fallback_prediction_step env path w HF Hg) as [r Hr].
    assert (Fallback (after_draws 2 w)) as HF' by exact HF.
    destruct (IH (after_draws 2 w) HF') as (rs & Hrs & Hlen).
    exists (r :: rs). split; [| simpl; now rewrite Hlen].
    simpl predict_batch. unfold bind. rewrite Hr, Hrs. unfold ret.
    f_equal. unfold after_draws. cbn [self rng_pos stdout]. f_equal.
    simpl length. lia.
Qed.

Lemma fallback_batch_succeeds_witness :
  exists rs : list PredictionResult,
    predict_batch (Sample.env true) ["a.png"; "b.png"; "c.png"] Sample.demo
      = (Ok rs, after_draws 6 Sample.demo) /\
    length rs = 3%nat.
Proof.
  apply (fallback_batch_succeeds (Sample.env true)
           ["a.png"; "b.png"; "c.png"] Sample.demo).
  - left. reflexivity.
  - exact samples_ok.
Defined.

(** ** The tensor of a plain colour *)

Lemma map_const_seq {A : Type} (c : A) (start n : nat) :
  map (fun _ : nat => c) (seq start n) = repeat c n.
Proof.
  revert start. induction n as [| n IH]; intros start; [reflexivity |].
  simpl. now rewrite IH.
Qed.

(** X8.  For a file that decodes to a one-colour image of mode "RGB", or of
    mode "RGBA" with any alpha value, [preprocess_image] returns exactly
    the plain tensor of that colour at the predictor's input size: the
    size of the original and its alpha band leave no trace. *)
Theorem preprocess_solid_tensor (env : environment) (path : string)
    (w : world) (bytes : list byte) (im : Image.image) (n : nat)
    (r g b alpha : Z) :
  resize_contract env ->
  files env !! path = Some bytes ->
  pil_decode env bytes = Ok im ->
  (Image.mode im = "RGB" /\ solid_color im n [r; g; b]) \/
  (Image.mode im = "RGBA" /\ solid_color im n [r; g; b; alpha]) ->
  preprocess_image env path w
    = (Ok (solid_tensor (img_size (self w)) r g b), w).
Proof.
  intros Hres Hfile Hdec Hmode.
  unfold preprocess_image, bind, get_self, Image_open, lift, ret.
  rewrite Hfile, Hdec.
  set (s := img_size (self w)).
  assert (forall im' : Image.image,
             (forall x y : nat, Image.getpixel im' x y = [r; g; b]) ->
             np_expand_dims0
               (np_divide (Image.to_array (pil_resize env im' (s, s))) 255)
             = solid_tensor s r g b) as Hsolid.
  { intros im' Hpix. destruct (Hres im' (s, s)) as (_ & Hsize & Hkeep).
    rewrite (to_array_solid _ s s [r; g; b] Hsize (Hkeep _ Hpix)).
    unfold np_expand_dims0, solid_tensor.
    cbn [Image.pixel_entry np_divide map].
    now rewrite !map_const_seq. }
  destruct Hmode as [[Hm [_ Hpix]] | [Hm [_ Hpix]]]; rewrite Hm.
  - replace (String.eqb "RGB" "RGBA") with false by reflexivity.
    rewrite (Hsolid im Hpix). reflexivity.
  - replace (String.eqb "RGBA" "RGBA") with true by reflexivity.
    rewrite (Hsolid (Image.convert_RGBA_to_RGB im)); [reflexivity |].
    intros x y. simpl. now rewrite Hpix.
Qed.

Lemma preprocess_solid_tensor_witness :
  preprocess_image (Sample.env true) "blue.png" Sample.loaded
    = (Ok (solid_tensor 224 0 128 255), Sample.loaded).
Proof.
  apply (preprocess_solid_tensor (Sample.env true) "blue.png" Sample.loaded
           [x03] (Sample.solid "RGBA" 3 [0; 128; 255; 64]) 3 0 128 255 64).
  - apply nearest_resize_contract.
  - reflexivity.
  - reflexivity.
  - right. split; [reflexivity |]. split; reflexivity.
Defined.

(** * Properties of the web service *)

(** ** Strings *)

Lemma rsplit_last_absent (sep : ascii) (s : string) :
  str_contains sep s = false -> rsplit_last sep s = None.
Proof.
  induction s as [| a rest IH]; [reflexivity |]. simpl.
  intros H. apply orb_false_iff in H as [Ha Hrest].
  now rewrite (IH Hrest), Ha.
Qed.

Lemma rsplit_last_append (sep : ascii) (stem ext : string) :
  str_contains sep ext = false ->
  rsplit_last sep (stem ++ String sep ext) = Some (stem, ext).
Proof.
  intros Hext. induction stem as [| a rest IH]; simpl.
  - now rewrite (rsplit_last_absent sep ext Hext), Ascii.eqb_refl.
  - now rewrite IH.
Qed.

Lemma rsplit_last_present (sep : ascii) (s : string) :
  str_contains sep s = true ->
  exists stem ext : string,
    s = stem ++ String sep ext /\ str_contains sep ext = false.
Proof.
  induction s as [| a rest IH]; [discriminate |]. simpl. intros H.
  destruct (str_contains sep rest) eqn:Hrest.
  - destruct (IH eq_refl) as (stem & ext & -> & Hext).
    exists (String a stem), ext. split; [reflexivity | exact Hext].
  - rewrite orb_false_r in H. apply Ascii.eqb_eq in H as ->.
    exists EmptyString, rest. split; [reflexivity | exact Hrest].
Qed.

Lemma str_contains_append (sep : ascii) (stem ext : string) :
  str_contains sep (stem ++ String sep ext) = true.
Proof.
  induction stem as [| a rest IH]; simpl.
  - now rewrite Ascii.eqb_refl.
  - rewrite IH. apply orb_true_r.
Qed.

(** The letters A to Z are lowered; their neighbours in the table and
    everything else stay. *)
Example str_lower_letters :
  str_lower "AZ@[az`{ Photo.JPG" = "az@[az`{ photo.jpg".
Proof. reflexivity. Qed.

Lemma ascii_lower_idempotent (a : ascii) :
  ascii_lower (ascii_lower a) = ascii_lower a.
Proof. destruct a as [[] [] [] [] [] [] [] []]; reflexivity. Qed.

Lemma str_lower_idempotent (s : string) :
  str_lower (str_lower s) = str_lower s.
Proof.
  induction s as [| a rest IH]; [reflexivity |]. simpl.
  now rewrite ascii_lower_idempotent, IH.
Qed.

(** ** [allowed_file] *)

(** On a name [stem.ext] whose [ext] holds no dot, [allowed_file] looks up
    the lower-cased [ext]. *)
Lemma allowed_file_at_extension (sv : services) (stem ext : string) :
  str_contains "." ext = false ->
  allowed_file sv (stem ++ String "." ext) =
    Ok (bool_decide (str_lower ext ∈ ALLOWED_EXTENSIONS (app_config sv))).
Proof.
  intros Hext. unfold allowed_file, str_rsplit1.
  now rewrite str_contains_append, (rsplit_last_append _ _ _ Hext).
Qed.

(** X9.  Only the part after the last dot matters to [allowed_file], and
    only up to the case of its ASCII letters: two names whose last
    extensions agree once lower-cased get the same answer, whatever
    stands before the last dot (nothing, or a stem with dots of its
    own). *)
Theorem allowed_file_only_extension_matters (sv : services)
    (stem stem' ext ext' : string) :
  str_contains "." ext = false ->
  str_contains "." ext' = false ->
  str_lower ext = str_lower ext' ->
  allowed_file sv (stem ++ String "." ext)
    = allowed_file sv (stem' ++ String "." ext').
Proof.
  intros Hext Hext' Hsame.
  rewrite (allowed_file_at_extension sv stem ext Hext).
  rewrite (allowed_file_at_extension sv stem' ext' Hext').
  now rewrite Hsame.
Qed.

Lemma allowed_file_only_extension_matters_witness :
  allowed_file (Desk.service Desk.config) "holiday.2024.JPeG"
    = allowed_file (Desk.service Desk.config) ".jpeg".
Proof.
  exact (allowed_file_only_extension_matters (Desk.service Desk.config)
           "holiday.2024" "" "JPeG" "jpeg" eq_refl eq_refl eq_refl).
Defined.

(** "a." followed by the Kelvin sign (U+212A, three bytes in UTF-8) is no
    ASCII name; "photo.JPG" is one. *)
Example kelvin_sign_is_not_ascii :
  str_isascii
    (String "a" (String "."
       (String (ascii_of_N 226) (String (ascii_of_N 132)
          (String (ascii_of_N 170) EmptyString))))) = false /\
  str_isascii "photo.JPG" = true.
Proof. split; reflexivity. Qed.



(** X11.  The comparison lower-cases the name but not the configured
    extensions: when every allowed extension holds an upper-case ASCII
    letter, no name at all is accepted. *)
Theorem allowed_file_upper_case_entries (sv : services) (name : string) :
  (forall e : string,
      e ∈ ALLOWED_EXTENSIONS (app_config sv) -> str_lower e <> e) ->
  allowed_file sv name = Ok false.
Proof.
  intros Hupper.
  destruct (str_contains "." name) eqn:Hdot.
  - destruct (rsplit_last_present _ _ Hdot) as (stem & ext & -> & Hext).
    rewrite (allowed_file_at_extension sv stem ext Hext). f_equal.
    apply bool_decide_eq_false. intros Hin.
    apply (Hupper _ Hin), str_lower_idempotent.
  - unfold allowed_file. now rewrite Hdot.
Qed.

Lemma allowed_file_upper_case_entries_witness :
  allowed_file (Desk.service Desk.capitals) "photo.png" = Ok false /\
  allowed_file (Desk.service Desk.capitals) "photo.PNG" = Ok false.
Proof.
  assert (forall e : string,
             e ∈ ALLOWED_EXTENSIONS (app_config (Desk.service Desk.capitals)) ->
             str_lower e <> e) as Hupper.
  { intros e He. vm_compute in He.
    change (e ∈ (list_to_set ["PNG"; "JPG"] : gset string)) in He.
    apply elem_of_list_to_set in He.
    apply elem_of_cons in He as [-> | He]; [discriminate |].
    apply elem_of_cons in He as [-> | He]; [discriminate |].
    inversion He. }
  split; apply allowed_file_upper_case_entries; exact Hupper.
Defined.

(** ** Configuration *)

Lemma config_lookup (base : ConfigAttrs) (key : string) :
  config base !! key =
    if String.eqb key "development" then Some (DevelopmentConfig base)
    else if String.eqb key "production" then Some (ProductionConfig base)
    else if String.eqb key "testing" then Some (TestingConfig base)
    else if String.eqb key "default" then Some (DevelopmentConfig base)
    else None.
Proof.
  unfold config. simpl.
  destruct (String.eqb_spec key "development") as [-> | H1];
    [now rewrite lookup_insert_eq |].
  rewrite lookup_insert_ne by congruence.
  destruct (String.eqb_spec key "production") as [-> | H2];
    [now rewrite lookup_insert_eq |].
  rewrite lookup_insert_ne by congruence.
  destruct (String.eqb_spec key "testing") as [-> | H3];
    [now rewrite lookup_insert_eq |].
  rewrite lookup_insert_ne by congruence.
  destruct (String.eqb_spec key "default") as [-> | H4];
    [now rewrite lookup_insert_eq |].
  rewrite lookup_insert_ne by congruence. apply lookup_empty.
Qed.

(** [get_config] in a module whose class body gave [base]. *)
Lemma get_config_outcome (environ : gmap string string) (base : ConfigAttrs) :
  let env := os_getenv environ "FLASK_ENV" "development" in
  get_config environ base =
    Ok (subclass base (negb (String.eqb env "production"))
          (String.eqb env "testing")).
Proof.
  intros env. unfold get_config, config_getitem. fold env.
  rewrite !config_lookup. cbn [String.eqb Ascii.eqb Bool.eqb].
  destruct (String.eqb_spec env "development") as [-> | H1]; [reflexivity |].
  destruct (String.eqb_spec env "production") as [-> | H2]; [reflexivity |].
  destruct (String.eqb_spec env "testing") as [-> | H3]; [reflexivity |].
  destruct (String.eqb env "default"); reflexivity.
Qed.

(** X12.  When the body of [Config] has run (the two conversions
    succeeded), [get_config] does not fail and never hands out the base
    class, so the variable DEBUG of the environment is without effect:
    [DEBUG] is off exactly when FLASK_ENV is "production" and on for every
    other value (unset and unknown names included), [TESTING] is on
    exactly for "testing"; port, paths, size limit and extensions are
    those of the base class.  When the body of [Config] raised, the import
    in app.py raises the same exception and no configuration is
    obtained. *)
Theorem get_config_by_flask_env (int_str : string -> result Z)
    (environ : gmap string string) (BASE_DIR : string) :
  let env := os_getenv environ "FLASK_ENV" "development" in
  (forall base : ConfigAttrs,
      Config int_str environ BASE_DIR = Ok base ->
      exists c : ConfigAttrs,
        app_get_config int_str environ BASE_DIR = Ok c /\
        get_config environ base = Ok c /\
        DEBUG c = negb (String.eqb env "production") /\
        TESTING c = Some (String.eqb env "testing") /\
        PORT c = PORT base /\
        MODEL_PATH c = MODEL_PATH base /\
        UPLOAD_FOLDER c = UPLOAD_FOLDER base /\
        MAX_CONTENT_LENGTH c = MAX_CONTENT_LENGTH base /\
        ALLOWED_EXTENSIONS c = ALLOWED_EXTENSIONS base) /\
  (forall e : exn,
      Config int_str environ BASE_DIR = Raise e ->
      app_get_config int_str environ BASE_DIR = Raise e).
Proof.
  intros env. split.
  - intros base Hbase. eexists. unfold app_get_config. rewrite Hbase.
    split; [apply get_config_outcome |].
    split; [apply get_config_outcome |].
    repeat split.
  - intros e He. unfold app_get_config. now rewrite He.
Qed.

(** The theorem above for FLASK_ENV=production with DEBUG=true, and for a
    PORT that is no number. *)
Lemma get_config_by_flask_env_witness :
  (exists c : ConfigAttrs,
      app_get_config Desk.decimal
        {[ "FLASK_ENV" := "production"; "DEBUG" := "true" ]} "/srv/backend"
        = Ok c /\
      DEBUG c = false /\ PORT c = 5000) /\
  app_get_config Desk.decimal {[ "PORT" := "abc" ]} "/srv/backend"
    = Raise (ValueError "invalid literal for int() with base 10").
Proof.
  split.
  - destruct (get_config_by_flask_env Desk.decimal
                {[ "FLASK_ENV" := "production"; "DEBUG" := "true" ]}
                "/srv/backend") as [H _].
    destruct (H _ eq_refl) as (c & Hc & _ & Hd & _ & Hp & _).
    exists c. split; [exact Hc |]. split; [exact Hd | exact Hp].
  - destruct (get_config_by_flask_env Desk.decimal {[ "PORT" := "abc" ]}
                "/srv/backend") as [_ H].
    exact (H _ eq_refl).
Defined.

Example production_ignores_DEBUG :
  DEBUG <$> match app_get_config Desk.decimal
                    {[ "FLASK_ENV" := "production"; "DEBUG" := "true" ]}
                    "/srv/backend" with
            | Ok c => Some c
            | Raise _ => None
            end = Some false.
Proof. reflexivity. Qed.

Lemma prefix_append (p a b : string) :
  String.prefix p a = true -> String.prefix p (a ++ b) = true.
Proof.
  revert a. induction p as [| c p IH]; intros a H.
  - destruct (a ++ b); reflexivity.
  - destruct a as [| c' a]; [discriminate |]. simpl in *.
    destruct (Ascii.ascii_dec c c'); [now apply IH | discriminate].
Qed.

Lemma os_path_join_isabs (a b : string) :
  os_path_isabs a = true -> os_path_isabs (os_path_join a b) = true.
Proof.
  intros Ha. unfold os_path_join.
  destruct (os_path_isabs b) eqn:Hb; [exact Hb |].
  destruct (String.eqb a "" || ends_with_slash a);
    unfold os_path_isabs; now apply prefix_append.
Qed.

(** X13.  The body of [Config] raises exactly when one of its two
    conversions does: the exception of [int] on PORT, else the one on
    MAX_CONTENT_LENGTH; a variable that is unset cannot raise.  When both
    succeed the class holds the two integers, and when the directory of
    config.py is an absolute path, as [Path(__file__).resolve()] makes
    it, [MODEL_PATH] and [UPLOAD_FOLDER] are absolute (so never empty):
    an absolute value is taken as it is, a relative one is placed under
    the directory, and an unset or empty MODEL_PATH gives model/model.h5
    there. *)
Theorem config_paths_absolute (int_str : string -> result Z)
    (environ : gmap string string) (BASE_DIR : string) :
  os_path_isabs BASE_DIR = true ->
  (forall e : exn,
      int_getenv int_str environ "PORT" 5000 = Raise e ->
      Config int_str environ BASE_DIR = Raise e) /\
  (forall (port : Z) (e : exn),
      int_getenv int_str environ "PORT" 5000 = Ok port ->
      int_getenv int_str environ "MAX_CONTENT_LENGTH" (16 * 1024 * 1024)
        = Raise e ->
      Config int_str environ BASE_DIR = Raise e) /\
  (forall port size : Z,
      int_getenv int_str environ "PORT" 5000 = Ok port ->
      int_getenv int_str environ "MAX_CONTENT_LENGTH" (16 * 1024 * 1024)
        = Ok size ->
      exists base : ConfigAttrs,
        Config int_str environ BASE_DIR = Ok base /\
        PORT base = port /\
        MAX_CONTENT_LENGTH base = size /\
        os_path_isabs (MODEL_PATH base) = true /\
        os_path_isabs (UPLOAD_FOLDER base) = true /\
        MODEL_PATH base <> "" /\
        (environ !! "MODEL_PATH" = None \/ environ !! "MODEL_PATH" = Some "" ->
         MODEL_PATH base
           = os_path_join (os_path_join BASE_DIR "model") "model.h5")).
Proof.
  intros Habs. split; [| split].
  - intros e He. unfold Config. now rewrite He.
  - intros port e Hp He. unfold Config. now rewrite Hp, He.
  - intros port size Hp Hs. unfold Config. rewrite Hp, Hs.
    eexists. split; [reflexivity |].
    cbn [PORT MAX_CONTENT_LENGTH MODEL_PATH UPLOAD_FOLDER].
    assert (os_path_isabs (Config_MODEL_PATH environ BASE_DIR) = true) as Hm.
    { unfold Config_MODEL_PATH.
      destruct (environ !! "MODEL_PATH") as [v |];
        [| now repeat apply os_path_join_isabs].
      destruct (String.eqb v ""); [now repeat apply os_path_join_isabs |].
      destruct (os_path_isabs v) eqn:Hv; [exact Hv |].
      now apply os_path_join_isabs. }
    split; [reflexivity |]. split; [reflexivity |].
    split; [exact Hm |]. split; [| split].
    + now apply os_path_join_isabs.
    + intros Hempty. rewrite Hempty in Hm. discriminate Hm.
    + unfold Config_MODEL_PATH. intros [-> | ->]; reflexivity.
Qed.

Lemma config_paths_absolute_witness :
  exists base : ConfigAttrs,
    Config Desk.decimal
      {[ "MODEL_PATH" := "trained/best.h5"; "PORT" := "8080" ]} "/srv/backend"
      = Ok base /\
    PORT base = 8080 /\
    MODEL_PATH base = "/srv/backend/trained/best.h5".
Proof.
  destruct (config_paths_absolute Desk.decimal
              {[ "MODEL_PATH" := "trained/best.h5"; "PORT" := "8080" ]}
              "/srv/backend" eq_refl) as (_ & _ & H).
  destruct (H 8080 (16 * 1024 * 1024) eq_refl eq_refl)
    as (base & Hbase & Hport & _).
  exists base. split; [exact Hbase |]. split; [exact Hport |].
  vm_compute in Hbase. injection Hbase as <-. reflexivity.
Defined.

(** ** [cleanup_old_files] *)

(** The entries [glob('*')] yields are the files directly in the folder. *)
Lemma glob_star_elem (folder path : string) (d : gmap string (list byte * Q)) :
  path ∈ glob_star folder d <->
  is_Some (d !! path) /\ is_Some (child_name folder path).
Proof.
  unfold glob_star. rewrite list_elem_of_In, filter_In, in_map_iff.
  split.
  - intros [((p & v) & Hp & Hin) Hchild]. simpl in Hp. subst p.
    apply list_elem_of_In, elem_of_map_to_list in Hin.
    split; [eauto |]. destruct (child_name folder path); [eauto | discriminate].
  - intros [[v Hv] [name Hname]]. split.
    + exists (path, v). split; [reflexivity |].
      now apply list_elem_of_In, elem_of_map_to_list.
    + now rewrite Hname.
Qed.

(** One round of the loop of [cleanup_old_files]: it ends normally and
    removes the file exactly when it exists and is older than an hour. *)
Lemma cleanup_step (sv : services) (now : Q) (p : string) (aw : app_world) :
  exists aw' : app_world,
    (let* regular := is_file p in
     if regular then
       let* mtime := stat_st_mtime p in
       if Qlt_le_dec 3600 (now - mtime) then
         let* _ := os_remove p in
         logger (log_deleted_old_file
                   (default "" (child_name (UPLOAD_FOLDER (app_config sv)) p)))
       else app_ret tt
     else app_ret tt) aw = (Ok tt, aw') /\
    predictor aw' = predictor aw /\
    clock_pos aw' = clock_pos aw /\
    forall (k : string) (b : list byte) (mt : Q),
      disk aw' !! k = Some (b, mt) <->
      disk aw !! k = Some (b, mt) /\ ~ (k = p /\ (3600 < now - mt)%Q).
Proof.
  unfold is_file, stat_st_mtime, os_remove.
  unfold app_bind, get_disk, set_disk, logger, app_ret, app_raise.
  cbv beta iota.
  destruct (disk aw !! p) as [[b0 mt0] |] eqn:Hp; cbv beta iota.
  - rewrite ?Hp. cbv beta iota.
    destruct (Qlt_le_dec 3600 (now - mt0)) as [Hold | Hyoung]; cbv beta iota.
    + rewrite ?Hp. cbv beta iota. eexists. split; [reflexivity |].
      cbn [predictor disk clock_pos log].
      split; [reflexivity |]. split; [reflexivity |].
      intros k b mt. destruct (decide (k = p)) as [-> | Hne].
      * rewrite lookup_delete_eq, Hp. split; [discriminate |].
        intros [[= <- <-] Hnot]. exfalso. apply Hnot. now split.
      * rewrite lookup_delete_ne by congruence. split; [| tauto].
        intros H. split; [exact H |]. intros [Heq _]. congruence.
    + exists aw. split; [reflexivity |].
      split; [reflexivity |]. split; [reflexivity |].
      intros k b mt. split; [| tauto].
      intros H. split; [exact H |]. intros [-> Ho].
      rewrite Hp in H. injection H as <- <-.
      apply (Qlt_not_le _ _ Ho Hyoung).
  - exists aw. split; [reflexivity |].
    split; [reflexivity |]. split; [reflexivity |].
    intros k b mt. split; [| tauto].
    intros H. split; [exact H |]. intros [-> _]. congruence.
Qed.

(** The loop of [cleanup_old_files] over any list of paths: it ends
    normally, and a file survives it exactly when it was not both listed
    and older than an hour. *)
Lemma cleanup_loop (sv : services) (now : Q) (paths : list string)
    (aw : app_world) :
  exists aw' : app_world,
    app_for paths (fun file_path =>
      let* regular := is_file file_path in
      if regular then
        let* mtime := stat_st_mtime file_path in
        if Qlt_le_dec 3600 (now - mtime) then
          let* _ := os_remove file_path in
          logger (log_deleted_old_file
                    (default "" (child_name (UPLOAD_FOLDER (app_config sv))
                                            file_path)))
        else app_ret tt
      else app_ret tt) aw = (Ok tt, aw') /\
    predictor aw' = predictor aw /\
    clock_pos aw' = clock_pos aw /\
    forall (k : string) (b : list byte) (mt : Q),
      disk aw' !! k = Some (b, mt) <->
      disk aw !! k = Some (b, mt) /\ ~ (k ∈ paths /\ (3600 < now - mt)%Q).
Proof.
  set (round := fun file_path : string => _).
  revert aw. induction paths as [| p rest IH]; intros aw.
  - exists aw. split; [reflexivity |]. split; [reflexivity |].
    split; [reflexivity |]. intros k b mt. split.
    + intros H. split; [exact H |]. intros [Hin _]. inversion Hin.
    + intros [H _]. exact H.
  - cbn [app_for]. unfold app_bind at 1.
    destruct (cleanup_step sv now p aw)
      as (aw1 & Hstep & Hpred1 & Hclock1 & Hdisk1).
    change (round p aw = (Ok tt, aw1)) in Hstep. rewrite Hstep.
    destruct (IH aw1) as (aw' & Hrun & Hpred & Hclock & Hdisk).
    exists aw'. split; [exact Hrun |].
    split; [congruence |]. split; [congruence |].
    intros k b mt. rewrite Hdisk, Hdisk1, elem_of_cons. tauto.
Qed.

(** [cleanup_old_files] returns, whatever is on the disk; it reads the
    clock once and leaves the predictor alone. *)
Lemma cleanup_old_files_outcome (sv : services) (aw : app_world) :
  exists aw' : app_world,
    cleanup_old_files sv aw = (Ok tt, aw') /\
    predictor aw' = predictor aw /\
    clock_pos aw' = S (clock_pos aw) /\
    forall (k : string) (b : list byte) (mt : Q),
      disk aw' !! k = Some (b, mt) <->
      disk aw !! k = Some (b, mt) /\
      ~ expired sv (clock sv (clock_pos aw)) k mt.
Proof.
  unfold cleanup_old_files, app_try. cbv zeta. unfold app_bind at 1 2.
  unfold datetime_now at 1, get_disk at 1.
  cbn [predictor disk clock_pos log].
  match goal with
  | |- context [app_for ?l ?f ?a] =>
      destruct (cleanup_loop sv (clock sv (clock_pos aw)) l a)
        as (aw' & Hrun & Hpred & Hclock & Hdisk)
  end.
  rewrite Hrun. exists aw'. split; [reflexivity |].
  split; [exact Hpred |]. split; [exact Hclock |].
  intros k b mt. rewrite Hdisk. cbn [disk]. unfold expired.
  rewrite glob_star_elem. split.
  - intros [H Hnot]. split; [exact H |].
    intros [Hchild Ho]. apply Hnot. split; [| exact Ho]. split; eauto.
  - intros [H Hnot]. split; [exact H |].
    intros [[_ Hchild] Ho]. apply Hnot. now split.
Qed.

(** X14.  [cleanup_old_files] never raises.  It removes every file that
    lies directly in the upload folder and was last modified more than
    3600 seconds before the clock reading it takes, and nothing else:
    younger uploads, files in subfolders and files elsewhere keep their
    bytes and their time.  The predictor is not touched. *)
Theorem cleanup_removes_expired_uploads (sv : services) (aw : app_world) :
  let now := clock sv (clock_pos aw) in
  let aw' := snd (cleanup_old_files sv aw) in
  fst (cleanup_old_files sv aw) = Ok tt /\
  predictor aw' = predictor aw /\
  forall (path : string),
    disk aw' !! path =
      match disk aw !! path with
      | Some (bytes, mtime) =>
          match child_name (UPLOAD_FOLDER (app_config sv)) path with
          | Some _ =>
              if Qlt_le_dec 3600 (now - mtime) then None
              else Some (bytes, mtime)
          | None => Some (bytes, mtime)
          end
      | None => None
      end.
Proof.
  intros now aw'. subst now aw'.
  destruct (cleanup_old_files_outcome sv aw)
    as (aw' & Hrun & Hpred & _ & Hdisk).
  rewrite Hrun. cbn [fst snd]. split; [reflexivity |]. split; [exact Hpred |].
  intros path.
  assert (forall o : option (list byte * Q),
             (forall b mt, disk aw' !! path = Some (b, mt) <-> o = Some (b, mt)) ->
             disk aw' !! path = o) as Hext.
  { intros o Ho. destruct (disk aw' !! path) as [[b mt] |] eqn:E.
    - symmetry. now apply Ho.
    - destruct o as [[b mt] |]; [| reflexivity].
      now apply (Ho b mt). }
  apply Hext. intros b mt. rewrite Hdisk. unfold expired.
  destruct (disk aw !! path) as [[b0 mt0] |]; [| split; [intros [H _] |]; easy].
  destruct (child_name (UPLOAD_FOLDER (app_config sv)) path) as [name |].
  - destruct (Qlt_le_dec 3600 (clock sv (clock_pos aw) - mt0)) as [Ho | Hy].
    + split; [| discriminate]. intros [[= <- <-] Hnot].
      exfalso. apply Hnot. split; [eauto | exact Ho].
    + split; [tauto |]. intros [= <- <-]. split; [reflexivity |].
      intros [_ Ho]. apply (Qlt_not_le _ _ Ho Hy).
  - split; [tauto |]. intros [= <- <-]. split; [reflexivity |].
    intros [[? H] _]. discriminate H.
Qed.

(** ** [analyze_image] *)

(** A valid upload: the file is saved under its temporary path, the
    predictor is run on it, and the answer is 200 with the file removed
    when the predictor returns, 500 with the file left when it raises. *)
Lemma analyze_image_valid (sv : services) (req : request)
    (file : FileStorage) (aw aw1 : app_world) :
  valid_upload sv req file ->
  cleanup_old_files sv aw = (Ok tt, aw1) ->
  let now := clock sv (clock_pos aw1) in
  let name :=
    secure_filename sv (str_timestamp sv now ++ "_" ++ filename file) in
  let filepath := temp_path sv now file in
  let saved :=
    <[filepath := (stream file, clock sv (S (clock_pos aw1)))]> (disk aw1) in
  analyze_image sv req aw =
    match predict (libraries_on saved (libraries sv)) filepath
                  (predictor aw1) with
    | (Ok r, w') =>
        (Ok {| response_body :=
                 body_success r
                   (isoformat sv (clock sv (S (S (clock_pos aw1)))));
               status := 200 |},
         {| predictor := w';
            disk := delete filepath (disk aw1);
            clock_pos := S (S (S (clock_pos aw1)));
            log := log aw1 ++
                   [log_processing name; log_deleted_temporary name;
                    log_analysis_complete (item r) (confidence r)] |})
    | (Raise e, w') =>
        (Ok {| response_body :=
                 body_internal_error
                   (if DEBUG (app_config sv) then str_exn sv e
                    else "Please try again");
               status := 500 |},
         {| predictor := w';
            disk := saved;
            clock_pos := S (S (clock_pos aw1));
            log := log aw1 ++
                   [log_processing name; log_analyze_error e;
                    log_traceback] |})
    end.
Proof.
  intros (Hmethod & Himage & Hname & Hallowed) Hclean now name filepath saved.
  subst saved filepath name now. unfold temp_path.
  unfold analyze_image.
  apply String.eqb_neq in Hmethod. rewrite Hmethod.
  apply String.eqb_neq in Hname.
  unfold app_try. unfold app_bind at 1. rewrite Hclean, Himage, Hname, Hallowed.
  repeat progress
    (unfold app_bind, datetime_now, file_save, get_disk, set_disk, logger,
       predictor_predict, os_remove, app_try, app_ret, app_raise;
     cbv beta iota; cbn [predictor disk clock_pos log]).
  destruct (predict _ _ _) as [[r | e] w'].
  - cbv beta iota. cbn [predictor disk clock_pos log].
    rewrite lookup_insert_eq. cbv beta iota.
    cbn [predictor disk clock_pos log].
    rewrite delete_insert_eq.
    rewrite <- !app_assoc. reflexivity.
  - cbv beta iota. cbn [predictor disk clock_pos log].
    rewrite <- !app_assoc. reflexivity.
Qed.

(** X15.  A request without an "image" part, with an empty file name, or
    with a name [allowed_file] turns down is answered 400 with an error
    body.  Old uploads have been cleaned by then, but nothing is saved,
    the predictor is not called and the generator not advanced. *)
Theorem analyze_rejects_without_saving (sv : services) (req : request)
    (aw : app_world) :
  method req <> "OPTIONS" ->
  request_files req !! "image" = None \/
  (exists file : FileStorage,
      request_files req !! "image" = Some file /\
      (filename file = "" \/ allowed_file sv (filename file) = Ok false)) ->
  exists (resp : response) (aw' : app_world) (error message : string),
    analyze_image sv req aw = (Ok resp, aw') /\
    status resp = 400 /\
    response_body resp = body_error error message /\
    predictor aw' = predictor aw /\
    disk aw' = disk (snd (cleanup_old_files sv aw)).
Proof.
  intros Hmethod Hcase.
  destruct (cleanup_old_files_outcome sv aw) as (aw1 & Hclean & Hpred & _).
  rewrite Hclean. cbn [snd].
  unfold analyze_image. apply String.eqb_neq in Hmethod. rewrite Hmethod.
  unfold app_try. unfold app_bind at 1. rewrite Hclean.
  assert (forall (entry : log_entry) (resp : response) (error message : string),
             status resp = 400 ->
             response_body resp = body_error error message ->
             exists (resp' : response) (aw' : app_world) (error' message' : string),
               (let (r, aw') := (let* _ := logger entry in app_ret resp) aw1 in
                match r with
                | Ok a => (Ok a, aw')
                | Raise e =>
                    (let* _ := logger (log_analyze_error e) in
                     let* _ := logger log_traceback in
                     app_ret
                       {| response_body :=
                            body_internal_error
                              (if DEBUG (app_config sv) then str_exn sv e
                               else "Please try again");
                          status := 500 |}) aw'
                end) = (Ok resp', aw') /\
               status resp' = 400 /\
               response_body resp' = body_error error' message' /\
               predictor aw' = predictor aw /\
               disk aw' = disk aw1) as Hanswer.
  { intros entry resp error message Hstatus Hbody.
    unfold app_bind, logger, app_ret. cbv beta iota.
    exists resp. eexists. exists error, message.
    split; [reflexivity |]. cbn [predictor disk].
    split; [exact Hstatus |]. split; [exact Hbody |].
    split; [exact Hpred | reflexivity]. }
  destruct Hcase as [Hnone | (file & Hfile & [Hempty | Hbad])].
  - rewrite Hnone. eapply Hanswer; reflexivity.
  - rewrite Hfile, Hempty. cbn [String.eqb]. eapply Hanswer; reflexivity.
  - rewrite Hfile, Hbad.
    destruct (String.eqb (filename file) ""); eapply Hanswer; reflexivity.
Qed.

Lemma analyze_rejects_without_saving_witness :
  exists (resp : response) (aw' : app_world) (error message : string),
    analyze_image (Desk.service Desk.config) (Desk.upload "notes.exe" [x68])
      (Desk.start Sample.demo) = (Ok resp, aw') /\
    status resp = 400 /\
    response_body resp = body_error error message /\
    predictor aw' = Sample.demo /\
    disk aw' = disk (snd (cleanup_old_files (Desk.service Desk.config)
                            (Desk.start Sample.demo))).
Proof.
  apply (analyze_rejects_without_saving (Desk.service Desk.config)
           (Desk.upload "notes.exe" [x68]) (Desk.start Sample.demo)).
  - discriminate.
  - right. eexists. split; [reflexivity |]. right. reflexivity.
Defined.

(** X16.  When a valid upload is classified, the answer is 200 with the
    predictor's result, and the temporary file is gone again: the disk is
    the cleaned disk without the temporary path, so nothing of the upload
    stays behind. *)
Theorem analyze_success_removes_upload (sv : services) (req : request)
    (file : FileStorage) (aw : app_world) (r : PredictionResult) (w' : world) :
  valid_upload sv req file ->
  let cleaned := disk (snd (cleanup_old_files sv aw)) in
  let filepath := temp_path sv (clock sv (S (clock_pos aw))) file in
  let saved :=
    <[filepath := (stream file, clock sv (S (S (clock_pos aw))))]> cleaned in
  predict (libraries_on saved (libraries sv)) filepath (predictor aw)
    = (Ok r, w') ->
  exists aw' : app_world,
    analyze_image sv req aw =
      (Ok {| response_body :=
               body_success r
                 (isoformat sv (clock sv (S (S (S (clock_pos aw))))));
             status := 200 |}, aw') /\
    predictor aw' = w' /\
    disk aw' = delete filepath cleaned /\
    disk aw' !! filepath = None.
Proof.
  intros Hvalid cleaned filepath saved Hpredict.
  subst saved filepath cleaned.
  destruct (cleanup_old_files_outcome sv aw)
    as (aw1 & Hclean & Hpred & Hclock & _).
  rewrite Hclean in *. cbn [snd] in *.
  rewrite (analyze_image_valid sv req file aw aw1 Hvalid Hclean).
  rewrite Hclock, Hpred, Hpredict.
  eexists. split; [reflexivity |]. cbn [predictor disk].
  split; [reflexivity |]. split; [reflexivity |]. apply lookup_delete_eq.
Qed.

(** X17.  When the predictor raises on a valid upload, the answer is 500;
    its [details] are the text of the exception when [DEBUG] is on and
    "Please try again" otherwise.  The temporary file is not removed: it
    is still on the disk, with the uploaded bytes. *)
Theorem analyze_failure_keeps_upload (sv : services) (req : request)
    (file : FileStorage) (aw : app_world) (e : exn) (w' : world) :
  valid_upload sv req file ->
  let cleaned := disk (snd (cleanup_old_files sv aw)) in
  let filepath := temp_path sv (clock sv (S (clock_pos aw))) file in
  let saved :=
    <[filepath := (stream file, clock sv (S (S (clock_pos aw))))]> cleaned in
  predict (libraries_on saved (libraries sv)) filepath (predictor aw)
    = (Raise e, w') ->
  exists aw' : app_world,
    analyze_image sv req aw =
      (Ok {| response_body :=
               body_internal_error
                 (if DEBUG (app_config sv) then str_exn sv e
                  else "Please try again");
             status := 500 |}, aw') /\
    predictor aw' = w' /\
    disk aw' = saved /\
    disk aw' !! filepath
      = Some (stream file, clock sv (S (S (clock_pos aw)))).
Proof.
  intros Hvalid cleaned filepath saved Hpredict.
  subst saved filepath cleaned.
  destruct (cleanup_old_files_outcome sv aw)
    as (aw1 & Hclean & Hpred & Hclock & _).
  rewrite Hclean in *. cbn [snd] in *.
  rewrite (analyze_image_valid sv req file aw aw1 Hvalid Hclean).
  rewrite Hclock, Hpred, Hpredict.
  eexists. split; [reflexivity |]. cbn [predictor disk].
  split; [reflexivity |]. split; [reflexivity |]. apply lookup_insert_eq.
Qed.

Lemma desk_upload_valid (cfg : ConfigAttrs) (name : string)
    (bytes : list byte) :
  name <> "" ->
  allowed_file (Desk.service cfg) name = Ok true ->
  valid_upload (Desk.service cfg) (Desk.upload name bytes)
    {| filename := name; stream := bytes |}.
Proof.
  intros Hname Hallowed. split; [discriminate |].
  split; [apply lookup_singleton_eq |]. split; assumption.
Qed.

Lemma analyze_success_removes_upload_witness :
  exists aw' : app_world,
    analyze_image (Desk.service Desk.config) (Desk.upload "red.png" [x02])
      (Desk.start Sample.loaded) =
      (Ok {| response_body :=
               body_success (build_result Organic_Waste 2 30)
                            "1970-01-01T02:46:43";
             status := 200 |}, aw') /\
    predictor aw' = Sample.loaded /\
    disk aw' !! "/srv/backend/uploads/10001.0_red.png" = None.
Proof.
  destruct (analyze_success_removes_upload (Desk.service Desk.config)
              (Desk.upload "red.png" [x02])
              {| filename := "red.png"; stream := [x02] |}
              (Desk.start Sample.loaded)
              (build_result Organic_Waste 2 30) Sample.loaded)
    as (aw' & Hrun & Hpred & _ & Hgone).
  - apply desk_upload_valid; [discriminate | reflexivity].
  - vm_compute. reflexivity.
  - exists aw'. split; [exact Hrun |]. split; [exact Hpred | exact Hgone].
Defined.

Lemma analyze_failure_keeps_upload_witness :
  exists aw' : app_world,
    analyze_image (Desk.service Desk.production) (Desk.upload "bad.png" [x68])
      (Desk.start Sample.loaded) =
      (Ok {| response_body := body_internal_error "Please try again";
             status := 500 |}, aw') /\
    disk aw' !! "/srv/backend/uploads/10001.0_bad.png"
      = Some ([x68], inject_Z 10002).
Proof.
  destruct (analyze_failure_keeps_upload (Desk.service Desk.production)
              (Desk.upload "bad.png" [x68])
              {| filename := "bad.png"; stream := [x68] |}
              (Desk.start Sample.loaded)
              UnidentifiedImageError Sample.loaded)
    as (aw' & Hrun & _ & _ & Hkept).
  - apply desk_upload_valid; [discriminate | reflexivity].
  - vm_compute. reflexivity.
  - exists aw'. split; [exact Hrun | exact Hkept].
Defined.

(** ** The service end to end *)

(** X18.  In demo mode the service answers 200 to every valid upload,
    whatever its bytes are: the result shown is the synthetic one of the
    next two draws of the generator, and the upload is removed again. *)
Theorem analyze_demo_mode_accepts_any_bytes (sv : services) (req : request)
    (file : FileStorage) (aw : app_world) :
  valid_upload sv req file ->
  Fallback (predictor aw) ->
  generator_ok (libraries sv) ->
  exists (r : PredictionResult) (aw' : app_world),
    analyze_image sv req aw =
      (Ok {| response_body :=
               body_success r
                 (isoformat sv (clock sv (S (S (S (clock_pos aw))))));
             status := 200 |}, aw') /\
    fst (demo_prediction (libraries sv) (predictor aw)) = Ok r /\
    predictor aw' = after_draws 2 (predictor aw) /\
    disk aw' !! temp_path sv (clock sv (S (clock_pos aw))) file = None.
Proof.
  intros Hvalid HF Hg.
  destruct (cleanup_old_files_outcome sv aw)
    as (aw1 & Hclean & Hpred & Hclock & _).
  rewrite (analyze_image_valid sv req file aw aw1 Hvalid Hclean).
  rewrite Hclock, Hpred.
  match goal with
  | |- context [predict ?env ?path (predictor aw)] =>
      assert (generator_ok env) as Hg' by exact Hg;
      destruct (fallback_prediction_step env path (predictor aw) HF Hg')
        as [r Hr];
      pose proof (predict_fallback env path (predictor aw) HF) as Hdemo;
      rewrite Hr
  end.
  exists r. eexists. split; [reflexivity |]. cbn [predictor disk].
  split; [| split; [reflexivity | apply lookup_delete_eq]].
  rewrite Hr in Hdemo.
  change (demo_prediction (libraries sv) (predictor aw))
    with (demo_prediction
            (libraries_on
               (<[temp_path sv (clock sv (S (clock_pos aw))) file :=
                    (stream file, clock sv (S (S (clock_pos aw))))]>
                  (disk aw1)) (libraries sv)) (predictor aw)).
  now rewrite <- Hdemo.
Qed.

Lemma desk_generator_ok : generator_ok (libraries (Desk.service Desk.config)).
Proof. exact samples_ok. Qed.

Lemma analyze_demo_mode_accepts_any_bytes_witness :
  exists (r : PredictionResult) (aw' : app_world),
    analyze_image (Desk.service Desk.config) (Desk.upload "bad.png" [x68])
      (Desk.start Sample.demo) =
      (Ok {| response_body := body_success r "1970-01-01T02:46:43";
             status := 200 |}, aw') /\
    category_id r = 0.
Proof.
  destruct (analyze_demo_mode_accepts_any_bytes (Desk.service Desk.config)
              (Desk.upload "bad.png" [x68])
              {| filename := "bad.png"; stream := [x68] |}
              (Desk.start Sample.demo))
    as (r & aw' & Hrun & Hdemo & _).
  - apply desk_upload_valid; [discriminate | reflexivity].
  - left. reflexivity.
  - exact desk_generator_ok.
  - exists r, aw'. split; [exact Hrun |].
    vm_compute in Hdemo. injection Hdemo as <-. reflexivity.
Defined.

(** X19.  With a model held, an upload that passes the name check but
    cannot be decoded as an image is answered 500, not with a 4xx code:
    the decoder's exception reaches the handler of [analyze_image].  The
    predictor is unchanged and the undecodable file stays in the upload
    folder. *)
Theorem analyze_undecodable_upload (sv : services) (req : request)
    (file : FileStorage) (aw : app_world) (m : keras_model) (e : exn) :
  valid_upload sv req file ->
  Loaded (predictor aw) m ->
  pil_decode (libraries sv) (stream file) = Raise e ->
  exists aw' : app_world,
    analyze_image sv req aw =
      (Ok {| response_body :=
               body_internal_error
                 (if DEBUG (app_config sv) then str_exn sv e
                  else "Please try again");
             status := 500 |}, aw') /\
    predictor aw' = predictor aw /\
    disk aw' !! temp_path sv (clock sv (S (clock_pos aw))) file
      = Some (stream file, clock sv (S (S (clock_pos aw)))).
Proof.
  intros Hvalid HL Hdecode.
  destruct (cleanup_old_files_outcome sv aw)
    as (aw1 & Hclean & Hpred & Hclock & _).
  rewrite (analyze_image_valid sv req file aw aw1 Hvalid Hclean).
  rewrite Hclock, Hpred.
  match goal with
  | |- context [predict ?env ?path (predictor aw)] =>
      assert (preprocess_image env path (predictor aw)
              = (Raise e, predictor aw)) as Hpre
  end.
  { unfold preprocess_image, bind, get_self, Image_open, lift.
    cbn [files libraries_on pil_decode].
    rewrite lookup_fmap, lookup_insert_eq. cbn [fmap option_fmap option_map fst].
    now rewrite Hdecode. }
  rewrite (predict_loaded _ _ _ m HL), Hpre.
  eexists. split; [reflexivity |]. cbn [predictor disk].
  split; [reflexivity | apply lookup_insert_eq].
Qed.

Lemma analyze_undecodable_upload_witness :
  exists aw' : app_world,
    analyze_image (Desk.service Desk.config) (Desk.upload "bad.png" [x68])
      (Desk.start Sample.loaded) =
      (Ok {| response_body :=
               body_internal_error "cannot identify image file";
             status := 500 |}, aw') /\
    predictor aw' = Sample.loaded.
Proof.
  destruct (analyze_undecodable_upload (Desk.service Desk.config)
              (Desk.upload "bad.png" [x68])
              {| filename := "bad.png"; stream := [x68] |}
              (Desk.start Sample.loaded) Sample.tied_model
              UnidentifiedImageError)
    as (aw' & Hrun & Hpred & _).
  - apply desk_upload_valid; [discriminate | reflexivity].
  - split; reflexivity.
  - reflexivity.
  - exists aw'. split; [exact Hrun | exact Hpred].
Defined.

(** ** Start-up and the status endpoints *)

(** X20.  Creating the service's predictor never raises and leaves the
    disk as it is.  Afterwards [/health] and [/api/stats] answer 200 and
    report the same flag, with 6 categories; the flag is on exactly when
    [MODEL_PATH] is a non-empty path to a non-empty file on the disk,
    TensorFlow was imported, and Keras read a model from that file. *)
Theorem startup_reports_model (sv : services) (aw : app_world) :
  let aw' := snd (create_predictor sv aw) in
  fst (create_predictor sv aw) = Ok tt /\
  disk aw' = disk aw /\
  exists flag : bool,
    health aw' = (Ok (flag, 200), aw') /\
    api_stats aw' = (Ok (0, flag, 6, 200), aw') /\
    (flag = true <->
     MODEL_PATH (app_config sv) <> "" /\
     exists (bytes : list byte) (mtime : Q) (m : keras_model),
       disk aw !! MODEL_PATH (app_config sv) = Some (bytes, mtime) /\
       bytes <> [] /\
       TF_AVAILABLE (libraries sv) = true /\
       keras_deserialize (libraries sv) bytes = Ok m).
Proof.
  intros aw'. subst aw'. unfold create_predictor.
  destruct (init_outcome (libraries_on (disk aw) (libraries sv))
              (Some (MODEL_PATH (app_config sv))) (predictor aw))
    as (m0 & msgs & Hrun & Hiff).
  rewrite Hrun. cbn [fst snd disk].
  split; [reflexivity |]. split; [reflexivity |].
  exists (match m0 with Some _ => true | None => false end).
  unfold health, api_stats. cbn [predictor self model_loaded].
  split; [reflexivity |]. split; [now rewrite len_WASTE_CATEGORIES |].
  split.
  - destruct m0 as [m |]; [intros _ | discriminate].
    destruct (proj1 (Hiff m) eq_refl)
      as (path & bytes & [= <-] & Hne & Hfile & Hbytes & Htf & Hdes).
    split; [exact Hne |].
    cbn [files libraries_on] in Hfile. rewrite lookup_fmap in Hfile.
    destruct (disk aw !! MODEL_PATH (app_config sv)) as [[b mt] |] eqn:E;
      [| discriminate].
    injection Hfile as ->. exists bytes, mt, m. repeat split; assumption.
  - intros (Hne & bytes & mt & m & Hfile & Hbytes & Htf & Hdes).
    assert (m0 = Some m) as ->; [| reflexivity].
    apply Hiff. exists (MODEL_PATH (app_config sv)), bytes.
    split; [reflexivity |]. split; [exact Hne |].
    split; [| repeat split; assumption].
    cbn [files libraries_on]. now rewrite lookup_fmap, Hfile.
Qed.

Example desk_starts_loaded :
  create_predictor (Desk.service Desk.config) (Desk.start Sample.blank)
    = (Ok tt, {| predictor :=
                   {| self := {| model := Some Sample.tied_model;
                                 model_loaded := true; img_size := 224 |};
                      rng_pos := 0;
                      stdout := [msg_loaded "/srv/backend/model/model.h5" 1] |};
                 disk := Desk.shelves; clock_pos := 0; log := [] |}).
Proof. reflexivity. Qed.

(** ** Left-over uploads *)

Lemma prefix_app_self (p s : string) : String.prefix p (p ++ s) = true.
Proof.
  induction p as [| c p IH]; simpl.
  - destruct s; reflexivity.
  - destruct (Ascii.ascii_dec c c); [exact IH | contradiction].
Qed.

Lemma substring_whole (s : string) :
  String.substring 0 (String.length s) s = s.
Proof. induction s as [| c s IH]; simpl; [reflexivity | now rewrite IH]. Qed.

Lemma substring_after_prefix (p s : string) :
  String.substring (String.length p)
    (String.length (p ++ s) - String.length p) (p ++ s) = s.
Proof.
  induction p as [| c p IH]; simpl.
  - rewrite Nat.sub_0_r. apply substring_whole.
  - exact IH.
Qed.

Lemma append_assoc_slash (a b : string) :
  (a ++ "/") ++ b = a ++ "/" ++ b.
Proof.
  induction a as [| c a IH]; [reflexivity |].
  change (String c ((a ++ "/") ++ b) = String c (a ++ "/" ++ b)).
  f_equal. exact IH.
Qed.

(** A flat, non-empty name joined to a folder is a direct child of it. *)
Lemma child_name_join (folder name : string) :
  folder <> "" -> name <> "" -> str_contains "/" name = false ->
  child_name folder (os_path_join folder name) = Some name.
Proof.
  intros Hfolder Hname Hflat.
  assert (os_path_isabs name = false) as Hrel.
  { destruct name as [| c rest]; [reflexivity |].
    unfold os_path_isabs.
    change (String.prefix "/" (String c rest))
      with (if Ascii.ascii_dec "/" c then String.prefix "" rest else false).
    destruct (Ascii.ascii_dec "/" c) as [<- | Hne]; [| reflexivity].
    simpl in Hflat. discriminate Hflat. }
  assert (os_path_join folder name = dir_prefix folder ++ name) as ->.
  { unfold os_path_join, dir_prefix. rewrite Hrel.
    apply String.eqb_neq in Hfolder. rewrite Hfolder. cbn [orb].
    destruct (ends_with_slash folder); [reflexivity |].
    symmetry. apply append_assoc_slash. }
  unfold child_name.
  rewrite prefix_app_self, substring_after_prefix, Hflat.
  apply String.eqb_neq in Hname. now rewrite Hname.
Qed.

(** X21.  The file [analyze_image] saves for an upload lies directly in
    the upload folder whenever [secure_filename] returns a non-empty name
    without a slash.  So a temporary file that was left behind is removed
    by the clean-up of the first request that arrives more than an hour
    after its time stamp, and is kept by every earlier clean-up. *)
Theorem leftover_upload_is_collected (sv : services) (aw : app_world)
    (now : Q) (file : FileStorage) (bytes : list byte) (mtime : Q) :
  let name :=
    secure_filename sv (str_timestamp sv now ++ "_" ++ filename file) in
  UPLOAD_FOLDER (app_config sv) <> "" ->
  name <> "" ->
  str_contains "/" name = false ->
  disk aw !! temp_path sv now file = Some (bytes, mtime) ->
  disk (snd (cleanup_old_files sv aw)) !! temp_path sv now file =
    if Qlt_le_dec 3600 (clock sv (clock_pos aw) - mtime) then None
    else Some (bytes, mtime).
Proof.
  intros name Hfolder Hname Hflat Hfile. subst name.
  pose proof (child_name_join _ _ Hfolder Hname Hflat) as Hchild.
  change (os_path_join _ _) with (temp_path sv now file) in Hchild.
  destruct (cleanup_old_files_outcome sv aw) as (aw' & Hrun & _ & _ & Hdisk).
  rewrite Hrun. cbn [snd].
  destruct (Qlt_le_dec 3600 (clock sv (clock_pos aw) - mtime)) as [Ho | Hy].
  - destruct (disk aw' !! temp_path sv now file) as [[b mt] |] eqn:E;
      [| reflexivity].
    apply Hdisk in E as [E Hnot]. rewrite Hfile in E. injection E as <- <-.
    exfalso. apply Hnot. split; [rewrite Hchild; eauto | exact Ho].
  - apply Hdisk. split; [exact Hfile |].
    intros [_ Ho]. apply (Qlt_not_le _ _ Ho Hy).
Qed.

Lemma leftover_upload_is_collected_witness :
  disk (snd (cleanup_old_files (Desk.service Desk.config)
               {| predictor := Sample.loaded;
                  disk := {[ "/srv/backend/uploads/10001.0_bad.png"
                               := ([x68], inject_Z 10002) ]};
                  clock_pos := 4000;
                  log := [] |}))
    !! "/srv/backend/uploads/10001.0_bad.png" = None.
Proof.
  exact (leftover_upload_is_collected (Desk.service Desk.config)
           {| predictor := Sample.loaded;
              disk := {[ "/srv/backend/uploads/10001.0_bad.png"
                           := ([x68], inject_Z 10002) ]};
              clock_pos := 4000;
              log := [] |}
           (inject_Z 10001) {| filename := "bad.png"; stream := [x68] |}
           [x68] (inject_Z 10002)
           ltac:(discriminate) ltac:(discriminate) eq_refl
           (lookup_singleton_eq _ _)).
Defined.
